(** * Finnish medical dictionary scraper: a shallow embedding

    Model of [medical_dictionary_scraper.py] (class
    [MedicalDictionaryScraper]) and proofs of the properties its
    specification states about the login state machine, the result
    classifier of [search_term] and the batch loop of
    [search_multiple_terms].

    Conventions of the embedding:
    - a Python [str] is the list of its Unicode code points ([list N]);
      literals of the source are written [lit "..."], the UTF-8 decoding
      of the bytes of the Rocq string;
    - [x in s] on strings is [contains x s];
    - [str.lower] is a builtin of the interpreter (the full Unicode case
      mapping); it is a parameter [lower] of the development;
    - the Selenium driver is an external collaborator: its state is an
      abstract type [Browser] and every call the source makes on it is a
      [command] answered by a parameter [perform], which may raise;
    - a method is a function [world -> (exn + A) * world]; the world holds
      the attributes of [self], the browser and a trace of what happened;
    - a Python [dict] is an association list in insertion order. *)

From Stdlib Require Import List NArith Bool Arith Lia String Ascii DecimalString.
Import ListNotations.

Local Open Scope N_scope.

(** ** Python strings *)

Definition str := list N.

Fixpoint utf8_decode (bs : list N) : str :=
  match bs with
  | [] => []
  | b :: t =>
    if b <? 128 then b :: utf8_decode t
    else
      match t with
      | [] => []
      | c1 :: t1 =>
        if b <? 224
        then (N.land b 31 * 64 + N.land c1 63) :: utf8_decode t1
        else
          match t1 with
          | [] => []
          | c2 :: t2 =>
            if b <? 240
            then (N.land b 15 * 4096 + N.land c1 63 * 64 + N.land c2 63)
                   :: utf8_decode t2
            else
              match t2 with
              | [] => []
              | c3 :: t3 =>
                (N.land b 7 * 262144 + N.land c1 63 * 4096
                 + N.land c2 63 * 64 + N.land c3 63) :: utf8_decode t3
              end
          end
      end
  end.

Definition lit (s : string) : str :=
  utf8_decode (map N_of_ascii (list_ascii_of_string s)).

(** [prefix.startswith(s)]: [p] is a prefix of [s]. *)
Fixpoint startswith (p s : str) : bool :=
  match p, s with
  | [], _ => true
  | _ :: _, [] => false
  | a :: p', b :: s' => (a =? b) && startswith p' s'
  end.

(** Python's [sub in s] on strings. *)
Fixpoint contains (sub s : str) : bool :=
  match s with
  | [] => startswith sub []
  | _ :: s' => startswith sub s || contains sub s'
  end.

(** The mathematical reading of "[s] contains [sub]". *)
Definition substring (sub s : str) : Prop :=
  exists l r, s = l ++ sub ++ r.

(** [str(n)] for a non-negative [int], as an f-string renders it. *)
Definition str_of_nat (n : nat) : str :=
  lit (NilEmpty.string_of_uint (Nat.to_uint n)).

(** A lowering function for examples: Python's [str.lower] on text whose
    code points are all below U+0100 (ASCII and Latin-1: [A-Z], [À-Ö] and
    [Ø-Þ] move up by 32, everything else is unchanged).  Code points from
    U+0100 on are left alone, so it stands for [str.lower] on Latin-1
    input only. *)
Definition lower_cp_latin1 (c : N) : N :=
  if (65 <=? c) && (c <=? 90) then c + 32
  else if (192 <=? c) && (c <=? 222) && negb (c =? 215) then c + 32
  else c.

Definition lower_latin1 (s : str) : str := map lower_cp_latin1 s.

(** ** The labels [search_term] returns *)

Definition found : str := lit "found".
Definition not_found : str := lit "not found".
Definition error : str := lit "error".

(** ** Python dictionaries, in insertion order *)

Fixpoint str_eqb (a b : str) : bool :=
  match a, b with
  | [], [] => true
  | x :: a', y :: b' => (x =? y) && str_eqb a' b'
  | _, _ => false
  end.

Definition dict := list (str * str).

(** [d[k] = v]: an existing key keeps its place and takes the new value,
    a new key goes to the end. *)
Fixpoint dict_set (k v : str) (d : dict) : dict :=
  match d with
  | [] => [(k, v)]
  | (k', v') :: d' =>
    if str_eqb k' k then (k', v) :: d' else (k', v') :: dict_set k v d'
  end.

(** [d.get(k)] *)
Fixpoint dict_get (k : str) (d : dict) : option str :=
  match d with
  | [] => None
  | (k', v') :: d' => if str_eqb k' k then Some v' else dict_get k d'
  end.

(** [k in ks] for a list of strings. *)
Definition mem (k : str) (ks : list str) : bool :=
  existsb (fun k' => str_eqb k' k) ks.

(** [list(d.keys())] *)
Definition keys (d : dict) : list str := map fst d.

(** The distinct elements of a list, each at the place of its first
    occurrence: the order in which a loop over the list inserts new keys. *)
Fixpoint first_occurrences (l : list str) : list str :=
  match l with
  | [] => []
  | x :: l' => x :: filter (fun y => negb (str_eqb y x)) (first_occurrences l')
  end.

(** ** Exceptions

    Every exception the driver can raise is an instance of [Exception];
    Selenium's [TimeoutException] is told apart because [search_term] has a
    handler of its own for it.  [msg] is what [str(e)] returns. *)

Inductive exn :=
| TimeoutException (msg : str)
| OtherException (msg : str).

Definition exn_str (e : exn) : str :=
  match e with
  | TimeoutException msg => msg
  | OtherException msg => msg
  end.

(** ** The attributes of [self] *)

Record scraper := Scraper {
  url : str;
  email : str;
  password : str;
  is_logged_in : bool
}.

Definition with_is_logged_in (b : bool) (s : scraper) : scraper :=
  Scraper (url s) (email s) (password s) b.

(** ** The interface to Selenium *)

Inductive By := XPATH | ID | CSS_SELECTOR.

Inductive condition :=
| element_to_be_clickable (by_ : By) (value : str)
| presence_of_element_located (by_ : By) (value : str).

Inductive chrome_option :=
| add_argument (arg : str)
| add_experimental_option_list (name : str) (value : list str)
| add_experimental_option_bool (name : str) (value : bool).

(** [Keys.RETURN], the code point U+E006 *)
Definition Keys_RETURN : str := [57350].

Section Scraper.

(** [str.lower] of the interpreter. *)
Variable lower : str -> str.

(** The state of the browser behind [self.driver], and the handles
    ([WebElement]) it gives out. *)
Variables Browser Element : Type.

(** The calls the source makes on [self.driver], [self.wait] and on the
    elements they return. *)
Inductive command : Type -> Type :=
| driver_get (address : str) : command unit
| wait_until (c : condition) : command Element
| find_element (by_ : By) (value : str) : command Element
| click (e : Element) : command unit
| clear (e : Element) : command unit
| send_keys (e : Element) (text : str) : command unit
| current_url : command str
| page_source : command str
| quit : command unit.

(** What the browser answers: a value or a raised exception, and its new
    state. *)
Variable perform : forall R, command R -> Browser -> (exn + R) * Browser.

(** [webdriver.Chrome(service=..., options=chrome_options)] *)
Variable webdriver_Chrome : list chrome_option -> exn + Browser.

(** What a run leaves behind, in order: lines printed, sleeps, calls on
    the driver, and a mark at each entry into [login] and [search_term]
    (the marks are bookkeeping of the model, used to count calls). *)
Inductive event :=
| Called_login
| Called_search_term (term : str)
| Printed (line : str)
| Slept (seconds : nat)
| Driver (R : Type) (c : command R).

Record world := World {
  self : scraper;
  browser : Browser;
  trace : list event
}.

(** The terms [search_term] was entered with, and how often [login] was
    entered. *)
Fixpoint searched (tr : list event) : list str :=
  match tr with
  | [] => []
  | Called_search_term term :: tr' => term :: searched tr'
  | _ :: tr' => searched tr'
  end.

Fixpoint logins (tr : list event) : nat :=
  match tr with
  | [] => O
  | Called_login :: tr' => S (logins tr')
  | _ :: tr' => logins tr'
  end.

(** *** Computations that change the world and may raise *)

Definition M (A : Type) : Type := world -> (exn + A) * world.

Definition ret {A} (a : A) : M A := fun w => (inr a, w).

Definition bind {A B} (m : M A) (k : A -> M B) : M B :=
  fun w =>
    match m w with
    | (inl e, w') => (inl e, w')
    | (inr a, w') => k a w'
    end.

(** [try: body except Exception as e: handler e] *)
Definition try_except {A} (body : M A) (handler : exn -> M A) : M A :=
  fun w =>
    match body w with
    | (inl e, w') => handler e w'
    | (inr a, w') => (inr a, w')
    end.

Local Notation "x <- m ;; k" := (bind m (fun x => k))
  (at level 61, m at next level, right associativity).
Local Notation "m ;; k" := (bind m (fun _ => k))
  (at level 61, right associativity).

Definition log (ev : event) : M unit :=
  fun w => (inr tt, World (self w) (browser w) (trace w ++ [ev])).

Definition print (line : str) : M unit := log (Printed line).

(** [time.sleep(seconds)] *)
Definition sleep (seconds : nat) : M unit := log (Slept seconds).

Definition driver {R} (c : command R) : M R :=
  fun w =>
    let (r, b) := perform R c (browser w) in
    (r, World (self w) b (trace w ++ [Driver R c])).

Definition get_self : M scraper := fun w => (inr (self w), w).

Definition set_is_logged_in (b : bool) : M unit :=
  fun w =>
    (inr tt, World (with_is_logged_in b (self w)) (browser w) (trace w)).

(** *** [__init__]

    The ten seconds of [WebDriverWait(self.driver, 10)] are part of how
    the browser answers [wait_until]. *)

Definition chrome_options (headless : bool) : list chrome_option :=
  (if headless then [add_argument (lit "--headless")] else [])
  ++ [add_argument (lit "--no-sandbox");
      add_argument (lit "--disable-dev-shm-usage");
      add_argument (lit "--disable-blink-features=AutomationControlled");
      add_experimental_option_list (lit "excludeSwitches")
                                   [lit "enable-automation"];
      add_experimental_option_bool (lit "useAutomationExtension") false].

Definition __init__ (email_ password_ : str) (headless : bool) : exn + world :=
  let self_ :=
    Scraper (lit "https://www.terveysportti.fi/apps/sanakirjat/")
            email_ password_ false in
  match webdriver_Chrome (chrome_options headless) with
  | inl e => inl e
  | inr b => inr (World self_ b [])
  end.

(** *** [login] *)

Definition login_body : M bool :=
  this <- get_self ;;
  print (lit "Navigating to website...") ;;
  driver (driver_get (url this)) ;;
  print (lit "Clicking login button...") ;;
  login_button <-
    driver (wait_until
              (element_to_be_clickable
                 XPATH (lit "//a[contains(@href, '/apps/duoauth/auth')]"))) ;;
  driver (click login_button) ;;
  print (lit "Waiting for login form...") ;;
  sleep 2%nat ;;
  print (lit "Entering credentials...") ;;
  username_input <-
    driver (wait_until (presence_of_element_located ID (lit "username"))) ;;
  driver (clear username_input) ;;
  driver (send_keys username_input (email this)) ;;
  password_input <- driver (find_element ID (lit "password")) ;;
  driver (clear password_input) ;;
  driver (send_keys password_input (password this)) ;;
  print (lit "Submitting login form...") ;;
  login_submit <-
    driver (find_element CSS_SELECTOR (lit "button[type='submit']")) ;;
  driver (click login_submit) ;;
  print (lit "Waiting for login to complete...") ;;
  sleep 5%nat ;;
  location <- driver current_url ;;
  if contains (lit "sanakirjat") location then
    print (lit "✓ Login successful!") ;;
    set_is_logged_in true ;;
    ret true
  else
    print (lit "✗ Login may have failed - unexpected URL") ;;
    ret false.

Definition login_handler (e : exn) : M bool :=
  print (lit "Error during login: " ++ exn_str e) ;;
  ret false.

Definition login : M bool :=
  log Called_login ;;
  try_except login_body login_handler.

(** *** [search_term] *)

(** Lines 135-155: the label for the page a search came back with. *)
Definition classify (page_source_ : str) : str :=
  if contains (lit "Ei tuloksia") page_source_ then not_found
  else if contains (lit "Yhteensä") page_source_
          && contains (lit "osumaa") page_source_ then found
  else if contains (lit "Lääketieteen termit") page_source_
          || contains (lit "termit") (lower page_source_) then found
  else
    let page_source_lower := lower page_source_ in
    if contains (lit "ei tuloksia") page_source_lower
       || contains (lit "ei löytynyt") page_source_lower then not_found
    else found.

(** Lines 117-133: submit the term and read the page. *)
Definition fetch_page_source (term : str) : M str :=
  this <- get_self ;;
  driver (driver_get (url this)) ;;
  search_input <-
    driver (wait_until
              (presence_of_element_located
                 CSS_SELECTOR
                 (lit "input[type='search'], input.form-control"))) ;;
  driver (clear search_input) ;;
  driver (send_keys search_input term) ;;
  driver (send_keys search_input Keys_RETURN) ;;
  sleep 3%nat ;;
  driver page_source.

Definition search_term_body (term : str) : M str :=
  page_source_ <- fetch_page_source term ;;
  ret (classify page_source_).

Definition search_term_handler (term : str) (e : exn) : M str :=
  match e with
  | TimeoutException _ =>
    print (lit "Timeout while searching for term: " ++ term) ;;
    ret error
  | OtherException _ =>
    print (lit "Error searching for term '" ++ term ++ lit "': "
           ++ exn_str e) ;;
    ret error
  end.

Definition search_term (term : str) : M str :=
  log (Called_search_term term) ;;
  try_except (search_term_body term) (search_term_handler term).

(** *** [search_multiple_terms] *)

(** [{term: "error" for term in terms}] *)
Definition all_error (terms : list str) : dict :=
  fold_left (fun d term => dict_set term error d) terms [].

(** The [for] loop of lines 183-189; [n] is [len(terms)] of the whole
    list, [i] the number [enumerate(terms, 1)] gives the next term. *)
Fixpoint search_loop (n i : nat) (terms : list str) (results : dict)
  : M dict :=
  match terms with
  | [] => ret results
  | term :: rest =>
    print (lit "Searching " ++ str_of_nat i ++ lit "/" ++ str_of_nat n
           ++ lit ": " ++ term) ;;
    status <- search_term term ;;
    let results := dict_set term status results in
    sleep 1%nat ;;
    search_loop n (S i) rest results
  end.

Definition search_multiple_terms (terms : list str) : M dict :=
  let searches := search_loop (List.length terms) 1%nat terms [] in
  this <- get_self ;;
  if negb (is_logged_in this) then
    ok <- login ;;
    if negb ok then
      print (lit "Failed to login. Cannot proceed with searches.") ;;
      ret (all_error terms)
    else searches
  else searches.

(** *** [close], [__enter__], [__exit__]

    The driver object is always true in [if self.driver], so [close]
    quits the browser. *)

Definition close : M unit := driver quit.

Definition __enter__ : M scraper := get_self.

Definition __exit__ : M unit := close.

(** The public operations of a scraper object, for statements about
    every way its state can change. *)
Inductive operation : Type -> Type :=
| op_login : operation bool
| op_search_term (term : str) : operation str
| op_search_multiple_terms (terms : list str) : operation dict
| op_close : operation unit
| op_enter : operation scraper
| op_exit : operation unit.

Definition call {A} (op : operation A) : M A :=
  match op with
  | op_login => login
  | op_search_term term => search_term term
  | op_search_multiple_terms terms => search_multiple_terms terms
  | op_close => close
  | op_enter => __enter__
  | op_exit => __exit__
  end.

End Scraper.

Arguments World {Browser Element}.
Arguments self {Browser Element}.
Arguments browser {Browser Element}.
Arguments trace {Browser Element}.
Arguments Called_login {Element}.
Arguments Called_search_term {Element}.
Arguments Printed {Element}.
Arguments Slept {Element}.
Arguments Driver {Element}.
Arguments searched {Element}.
Arguments logins {Element}.
Arguments ret {Browser Element A}.
Arguments bind {Browser Element A B}.
Arguments try_except {Browser Element A}.
Arguments log {Browser Element}.
Arguments print {Browser Element}.
Arguments sleep {Browser Element}.
Arguments get_self {Browser Element}.
Arguments set_is_logged_in {Browser Element}.
Arguments driver {Browser Element} perform {R} c.
Arguments login_body {Browser Element} perform.
Arguments login_handler {Browser Element} e.
Arguments login {Browser Element} perform.
Arguments fetch_page_source {Browser Element} perform term.
Arguments search_term_body lower {Browser Element} perform term.
Arguments search_term_handler {Browser Element} term e.
Arguments search_term lower {Browser Element} perform term.
Arguments search_loop lower {Browser Element} perform n i terms results.
Arguments search_multiple_terms lower {Browser Element} perform terms.
Arguments close {Browser Element} perform.
Arguments __enter__ {Browser Element}.
Arguments __exit__ {Browser Element} perform.
Arguments call lower {Browser Element} perform {A} op.
Arguments __init__ {Browser Element} webdriver_Chrome email_ password_ headless.
Arguments lit : simpl never.
Arguments classify : simpl never.
Arguments str_of_nat : simpl never.

(** The status [search_term] returns for the occurrence of [term] that
    comes after the terms [pre], in a loop over [n] terms started in
    world [w]. *)
Definition status_of_occurrence (lower : str -> str) {Browser Element}
  (perform : forall R, command Element R -> Browser -> (exn + R) * Browser)
  (n : nat) (pre : list str) (term : str) (w : world Browser Element)
  : exn + str :=
  let w_pre := snd (search_loop lower perform n 1%nat pre [] w) in
  let line := lit "Searching " ++ str_of_nat (S (List.length pre)) ++ lit "/"
              ++ str_of_nat n ++ lit ": " ++ term in
  fst (search_term lower perform term (snd (print line w_pre))).

(** The world in which the loop of [search_multiple_terms] starts, when
    it starts: the given one for a session that is logged in, else the
    one a successful [login] leaves. *)
Definition authenticated_world {Browser Element}
  (perform : forall R, command Element R -> Browser -> (exn + R) * Browser)
  (w : world Browser Element) : option (world Browser Element) :=
  if is_logged_in (self w) then Some w
  else
    match login perform w with
    | (inr true, w1) => Some w1
    | _ => None
    end.

(** ** A canned site, for examples

    A stand-in for the browser in the sense of the specification's fake
    client: the login link leads to a sign-in form, submitting it leads
    back to the dictionary when [fb_accepts] holds, and a search shows a
    canned page. *)

Inductive fake_element :=
| LoginLink | UsernameInput | PasswordInput | SubmitButton | SearchInput.

Record fake_browser := FakeBrowser {
  fb_location : str;
  fb_query : str;
  fb_page : str;
  fb_accepts : bool;
  fb_login_link : option exn;
  fb_search_box : option exn
}.

Definition fake_results (query : str) : str :=
  if str_eqb query (lit "Kirjasto") then lit "<p>Ei tuloksia</p>"
  else if str_eqb query (lit "lääkäri")
  then lit "<p>Yhteensä 305 osumaa haulla lääkäri</p>"
  else if str_eqb query (lit "Sydän")
  then lit "<h2>Lääketieteen termit</h2>"
  else lit "<html></html>".

Definition fake_at (location : str) (b : fake_browser) : fake_browser :=
  FakeBrowser location (fb_query b) (fb_page b) (fb_accepts b)
              (fb_login_link b) (fb_search_box b).

Definition fake_typing (query page : str) (b : fake_browser) : fake_browser :=
  FakeBrowser (fb_location b) query page (fb_accepts b)
              (fb_login_link b) (fb_search_box b).

Definition fake_perform (R : Type) (c : command fake_element R)
  (b : fake_browser) : (exn + R) * fake_browser :=
  match c in command _ R return (exn + R) * fake_browser with
  | driver_get _ address => (inr tt, fake_at address b)
  | wait_until _ (element_to_be_clickable _ _) =>
    match fb_login_link b with
    | Some e => (inl e, b)
    | None => (inr LoginLink, b)
    end
  | wait_until _ (presence_of_element_located ID _) => (inr UsernameInput, b)
  | wait_until _ (presence_of_element_located _ _) =>
    match fb_search_box b with
    | Some e => (inl e, b)
    | None => (inr SearchInput, b)
    end
  | find_element _ ID _ => (inr PasswordInput, b)
  | find_element _ _ _ => (inr SubmitButton, b)
  | click _ LoginLink =>
    (inr tt, fake_at (lit "https://www.terveysportti.fi/apps/duoauth/auth") b)
  | click _ SubmitButton =>
    (inr tt,
     if fb_accepts b
     then fake_at (lit "https://www.terveysportti.fi/apps/sanakirjat/") b
     else b)
  | click _ _ => (inr tt, b)
  | clear _ SearchInput => (inr tt, fake_typing [] (fb_page b) b)
  | clear _ _ => (inr tt, b)
  | send_keys _ SearchInput text =>
    (inr tt,
     if str_eqb text Keys_RETURN
     then fake_typing (fb_query b) (fake_results (fb_query b)) b
     else fake_typing (fb_query b ++ text) (fb_page b) b)
  | send_keys _ _ _ => (inr tt, b)
  | current_url _ => (inr (fb_location b), b)
  | page_source _ => (inr (fb_page b), b)
  | quit _ => (inr tt, b)
  end.

Definition fake_start (accepts : bool) (login_link search_box : option exn)
  : fake_browser :=
  FakeBrowser [] [] [] accepts login_link search_box.

Definition fake_world (logged_in accepts : bool)
  (login_link search_box : option exn) : world fake_browser fake_element :=
  World
    (Scraper (lit "https://www.terveysportti.fi/apps/sanakirjat/")
             (lit "user@example.org") (lit "secret") logged_in)
    (fake_start accepts login_link search_box) [].

(** ** What a trace shows *)

Section Observations.

Variable Element : Type.

(** The texts sent with [send_keys], in order. *)
Fixpoint typed (tr : list (event Element)) : list str :=
  match tr with
  | [] => []
  | Driver _ (send_keys _ _ text) :: tr' => text :: typed tr'
  | _ :: tr' => typed tr'
  end.

(** The addresses given to [driver.get], in order. *)
Fixpoint navigated (tr : list (event Element)) : list str :=
  match tr with
  | [] => []
  | Driver _ (driver_get _ address) :: tr' => address :: navigated tr'
  | _ :: tr' => navigated tr'
  end.

(** The seconds spent in [time.sleep]. *)
Fixpoint slept (tr : list (event Element)) : nat :=
  match tr with
  | [] => O
  | Slept seconds :: tr' => (seconds + slept tr')%nat
  | _ :: tr' => slept tr'
  end.

(** How often [driver.quit] was called. *)
Fixpoint quits (tr : list (event Element)) : nat :=
  match tr with
  | [] => O
  | Driver _ (quit _) :: tr' => S (quits tr')
  | _ :: tr' => quits tr'
  end.

(** How many calls went to the driver and its elements. *)
Fixpoint driven (tr : list (event Element)) : nat :=
  match tr with
  | [] => O
  | Driver _ _ :: tr' => S (driven tr')
  | _ :: tr' => driven tr'
  end.

End Observations.

Arguments typed {Element}.
Arguments navigated {Element}.
Arguments slept {Element}.
Arguments quits {Element}.
Arguments driven {Element}.

(** ** The [with] block and [main] *)

Section Program.

Variable lower : str -> str.
Variables Browser Element : Type.
Variable perform :
  forall R, command Element R -> Browser -> (exn + R) * Browser.
Variable webdriver_Chrome : list chrome_option -> exn + Browser.

Local Notation "x <- m ;; k" := (bind m (fun x => k))
  (at level 61, m at next level, right associativity).
Local Notation "m ;; k" := (bind m (fun _ => k))
  (at level 61, right associativity).

(** [with scraper: body] for a scraper that exists: [__enter__], the
    body, then [__exit__] whether or not the body raised.  [__exit__]
    returns [None], so an exception of the body is raised again after it;
    an exception of [__exit__] itself takes its place. *)
Definition with_scraper {A} (body : M Browser Element A)
  : M Browser Element A :=
  fun w =>
    match __enter__ w with
    | (inl e, w0) => (inl e, w0)
    | (inr _, w0) =>
      let (r, w1) := body w0 in
      match __exit__ perform w1 with
      | (inl e, w2) => (inl e, w2)
      | (inr _, w2) => (r, w2)
      end
    end.

(** The operations of a list called one after the other on the same
    object; a caller may go on after an operation raised. *)
Fixpoint run_operations (ops : list {A : Type & operation A})
  (w : world Browser Element) : world Browser Element :=
  match ops with
  | [] => w
  | existT _ _ op :: ops' =>
    run_operations ops' (snd (call lower perform op w))
  end.

(** [main]: lines 207-231. *)

Definition search_terms : list str :=
  [lit "Kirjasto"; lit "lääkäri"; lit "Sydän"; lit "lentokone"].

(** ["=" * 50] *)
Definition rule : str := repeat 61 50.

(** [f'"{term}" = "{status}"'] *)
Definition result_line (term status : str) : str :=
  [34] ++ term ++ [34] ++ lit " = " ++ [34] ++ status ++ [34].

(** [for term, status in results.items(): print(...)] *)
Fixpoint print_items (results : dict) : M Browser Element unit :=
  match results with
  | [] => ret tt
  | (term, status) :: rest =>
    print (result_line term status) ;;
    print_items rest
  end.

Definition display (results : dict) : M Browser Element unit :=
  print ([10] ++ rule) ;;
  print (lit "RESULTS:") ;;
  print rule ;;
  print_items results ;;
  print rule.

(** [main] starts before there is a browser: it gives what it returns or
    raises and the trace of the whole program, which begins with the two
    lines printed before the constructor runs. *)
Definition main : (exn + dict) * list (event Element) :=
  let EMAIL : str := [] in
  let PASSWORD : str := [] in
  let opening :=
    [Printed (lit "Starting Medical Dictionary Scraper...");
     Printed (lit "Searching for " ++ str_of_nat (List.length search_terms)
              ++ lit " terms" ++ [10])] in
  match __init__ webdriver_Chrome EMAIL PASSWORD false with
  | inl e => (inl e, opening)
  | inr w0 =>
    let w := World (self w0) (browser w0) (opening ++ trace w0) in
    let (r, w') :=
      (results <-
         with_scraper (search_multiple_terms lower perform search_terms) ;;
       display results ;;
       ret results) w in
    (r, trace w')
  end.

End Program.

Arguments with_scraper {Browser Element} perform {A} body.
Arguments run_operations lower {Browser Element} perform ops w.
Arguments print_items {Browser Element} results.
Arguments display {Browser Element} results.
Arguments main lower {Browser Element} perform webdriver_Chrome.

(** ** Facts on strings *)

Example lit_Yhteensa :
  lit "Yhteensä" = [89; 104; 116; 101; 101; 110; 115; 228].
Proof. reflexivity. Qed.

Example lit_check_mark : lit "✓" = [10003].
Proof. reflexivity. Qed.

Example str_of_nat_305 : str_of_nat 305 = lit "305".
Proof. reflexivity. Qed.

Lemma startswith_app (p r : str) : startswith p (p ++ r) = true.
Proof.
  induction p as [|a p IH]; simpl; [reflexivity|].
  now rewrite N.eqb_refl, IH.
Qed.

Lemma startswith_inv (p s : str) :
  startswith p s = true -> exists r, s = p ++ r.
Proof.
  revert s; induction p as [|a p IH]; intros s H.
  - now exists s.
  - destruct s as [|b s]; simpl in H; [discriminate|].
    apply andb_true_iff in H as [Hab Hps].
    apply N.eqb_eq in Hab; subst b.
    destruct (IH _ Hps) as [r ->]. now exists r.
Qed.

Lemma contains_spec (sub s : str) :
  contains sub s = true <-> substring sub s.
Proof.
  split.
  - induction s as [|c s IH]; simpl; intros H.
    + destruct sub; [|discriminate]. now exists [], [].
    + apply orb_true_iff in H as [H|H].
      * destruct (startswith_inv _ _ H) as [r Hr]. now exists [], r.
      * destruct (IH H) as (l & r & ->). now exists (c :: l), r.
  - intros (l & r & ->).
    induction l as [|c l IH]; simpl.
    + destruct (sub ++ r) as [|c t] eqn:E.
      * apply app_eq_nil in E as [-> _]. reflexivity.
      * cbn [contains]. rewrite <- E, startswith_app. reflexivity.
    + rewrite IH. apply orb_true_r.
Qed.

Lemma contains_false (sub s : str) :
  contains sub s = false <-> ~ substring sub s.
Proof.
  rewrite <- contains_spec. destruct (contains sub s); split; intuition congruence.
Qed.

Lemma str_eqb_eq (a b : str) : str_eqb a b = true <-> a = b.
Proof.
  revert b; induction a as [|x a IH]; intros [|y b]; simpl;
    try (split; [discriminate|discriminate]); [tauto|].
  rewrite andb_true_iff, N.eqb_eq, IH.
  split; [intros [-> ->]; reflexivity | intros [= -> ->]; auto].
Qed.

Lemma str_eqb_refl (a : str) : str_eqb a a = true.
Proof. now apply str_eqb_eq. Qed.

Lemma str_eqb_neq (a b : str) : str_eqb a b = false <-> a <> b.
Proof.
  rewrite <- str_eqb_eq. destruct (str_eqb a b); split; intuition congruence.
Qed.

Lemma str_eqb_sym (a b : str) : str_eqb a b = str_eqb b a.
Proof.
  destruct (str_eqb b a) eqn:E.
  - apply str_eqb_eq in E as ->. apply str_eqb_refl.
  - apply str_eqb_neq. apply str_eqb_neq in E. congruence.
Qed.

Lemma mem_In (k : str) (ks : list str) : mem k ks = true <-> In k ks.
Proof.
  unfold mem. rewrite existsb_exists. split.
  - intros (x & Hx & E). apply str_eqb_eq in E. now subst.
  - intros H. exists k. split; [assumption | apply str_eqb_refl].
Qed.

Lemma mem_app (k : str) (a b : list str) : mem k (a ++ b) = mem k a || mem k b.
Proof. apply existsb_app. Qed.

(** ** Facts on dictionaries *)

Lemma keys_dict_set (k v : str) (d : dict) :
  keys (dict_set k v d) = if mem k (keys d) then keys d else keys d ++ [k].
Proof.
  induction d as [|[k' v'] d IH]; simpl; [reflexivity|].
  destruct (str_eqb k' k); simpl; [reflexivity|].
  fold (keys (dict_set k v d)) (keys d) (mem k (keys d)).
  rewrite IH. now destruct (mem k (keys d)).
Qed.

Lemma dict_get_set_same (k v : str) (d : dict) :
  dict_get k (dict_set k v d) = Some v.
Proof.
  induction d as [|[k' v'] d IH]; simpl.
  - now rewrite str_eqb_refl.
  - destruct (str_eqb k' k) eqn:E; simpl; now rewrite E.
Qed.

Lemma dict_get_set_other (k k0 v : str) (d : dict) :
  k0 <> k -> dict_get k0 (dict_set k v d) = dict_get k0 d.
Proof.
  intros Hne. induction d as [|[k' v'] d IH]; simpl.
  - destruct (str_eqb k k0) eqn:E; [|reflexivity].
    apply str_eqb_eq in E. congruence.
  - destruct (str_eqb k' k) eqn:E; simpl.
    + apply str_eqb_eq in E; subst k'.
      destruct (str_eqb k k0) eqn:E'; [|reflexivity].
      apply str_eqb_eq in E'. congruence.
    + now rewrite IH.
Qed.

Lemma dict_get_keys (k : str) (d : dict) :
  In k (keys d) <-> exists v, dict_get k d = Some v.
Proof.
  induction d as [|[k' v'] d IH]; simpl.
  - split; [tauto | intros [v [=]]].
  - destruct (str_eqb k' k) eqn:E.
    + apply str_eqb_eq in E. split; [eauto | auto].
    + apply str_eqb_neq in E. rewrite <- IH. tauto.
Qed.

Lemma filter_twice {A} (f g : A -> bool) (l : list A) :
  filter f (filter g l) = filter (fun x => g x && f x) l.
Proof.
  induction l as [|x l IH]; simpl; [reflexivity|].
  destruct (g x); simpl; [destruct (f x)|]; now rewrite IH.
Qed.

Lemma filter_all_in {A} (f : A -> bool) (l : list A) :
  (forall x, In x l -> f x = true) -> filter f l = l.
Proof.
  intros H. induction l as [|x l IH]; simpl; [reflexivity|].
  rewrite (H x (or_introl eq_refl)), IH; [reflexivity|].
  intros y Hy. apply H. now right.
Qed.

Lemma filter_all {A} (f : A -> bool) (l : list A) :
  (forall x, f x = true) -> filter f l = l.
Proof.
  intros H. induction l as [|x l IH]; simpl; [reflexivity|].
  now rewrite H, IH.
Qed.

Lemma first_occurrences_In (x : str) (l : list str) :
  In x (first_occurrences l) <-> In x l.
Proof.
  induction l as [|y l IH]; simpl; [tauto|].
  rewrite filter_In, IH, negb_true_iff, str_eqb_neq.
  destruct (list_eq_dec N.eq_dec y x); intuition congruence.
Qed.

Lemma first_occurrences_NoDup (l : list str) : NoDup (first_occurrences l).
Proof.
  induction l as [|y l IH]; simpl; constructor.
  - rewrite filter_In, negb_true_iff, str_eqb_neq. tauto.
  - now apply NoDup_filter.
Qed.

(** Inserting [x] and then the new keys of [l] is inserting the new keys
    of [x :: l]. *)
Lemma first_occurrences_step (ks : list str) (x : str) (l : list str) :
  let ks' := if mem x ks then ks else ks ++ [x] in
  ks' ++ filter (fun y => negb (mem y ks')) (first_occurrences l)
  = ks ++ filter (fun y => negb (mem y ks)) (first_occurrences (x :: l)).
Proof.
  simpl. destruct (mem x ks) eqn:Hx; simpl.
  - f_equal. rewrite filter_twice. apply filter_ext. intros y.
    destruct (str_eqb y x) eqn:E; [|reflexivity].
    apply str_eqb_eq in E; subst y. now rewrite Hx.
  - rewrite <- app_assoc. simpl. do 2 f_equal.
    rewrite filter_twice. apply filter_ext. intros y.
    rewrite mem_app. unfold mem at 2. simpl.
    rewrite orb_false_r, negb_orb, andb_comm. f_equal. f_equal.
    apply str_eqb_sym.
Qed.

Lemma first_occurrences_NoDup_id (l : list str) :
  NoDup l -> first_occurrences l = l.
Proof.
  induction 1 as [|x l Hx Hnd IH]; simpl; [reflexivity|].
  rewrite IH. f_equal. apply filter_all_in.
  intros y Hy. apply negb_true_iff, str_eqb_neq. congruence.
Qed.

Lemma keys_from_empty (l : list str) :
  filter (fun y => negb (mem y [])) (first_occurrences l)
  = first_occurrences l.
Proof. now apply filter_all. Qed.

Lemma all_error_fold (terms : list str) :
  forall d0 : dict,
    let d := fold_left (fun d term => dict_set term error d) terms d0 in
    keys d = keys d0
             ++ filter (fun y => negb (mem y (keys d0)))
                       (first_occurrences terms)
    /\ (forall t, In t terms -> dict_get t d = Some error)
    /\ (forall t, ~ In t terms -> dict_get t d = dict_get t d0).
Proof.
  induction terms as [|x l IH]; intros d0; cbn zeta.
  - cbn. rewrite app_nil_r. repeat split; tauto.
  - cbn [fold_left].
    destruct (IH (dict_set x error d0)) as (Hk & Hin & Hout).
    repeat split.
    + rewrite Hk, keys_dict_set. apply first_occurrences_step.
    + intros t Ht.
      destruct (in_dec (list_eq_dec N.eq_dec) t l) as [Hl|Hl];
        [now apply Hin|].
      destruct Ht as [->|Ht]; [|contradiction].
      rewrite (Hout t Hl). apply dict_get_set_same.
    + intros t Ht. rewrite Hout by (simpl in Ht; tauto).
      apply dict_get_set_other. simpl in Ht. intuition congruence.
Qed.

Lemma first_occurrences_length (l : list str) :
  (List.length (first_occurrences l) <= List.length l)%nat
  /\ (~ NoDup l -> (List.length (first_occurrences l) < List.length l)%nat).
Proof.
  induction l as [|x l [IHle IHlt]]; simpl.
  - split; [lia|]. intros H. destruct H. constructor.
  - pose proof (filter_length_le (fun y => negb (str_eqb y x))
                                 (first_occurrences l)) as Hf.
    split; [lia|]. intros Hnd.
    destruct (in_dec (list_eq_dec N.eq_dec) x l) as [Hin|Hin].
    + apply first_occurrences_In in Hin.
      enough (List.length (filter (fun y => negb (str_eqb y x))
                                  (first_occurrences l))
              < List.length (first_occurrences l))%nat by lia.
      clear -Hin. induction (first_occurrences l) as [|y l' IH];
        [destruct Hin|]. simpl.
      pose proof (filter_length_le (fun y => negb (str_eqb y x)) l').
      destruct (str_eqb y x) eqn:E; simpl; [lia|].
      apply str_eqb_neq in E. destruct Hin as [->|Hin]; [congruence|].
      specialize (IH Hin). lia.
    + assert (~ NoDup l) as Hl
          by (intros Hl; apply Hnd; now constructor).
      specialize (IHlt Hl). lia.
Qed.

(** ** Facts on runs *)

Section Runs.

Variable lower : str -> str.
Variables Browser Element : Type.
Variable perform :
  forall R, command Element R -> Browser -> (exn + R) * Browser.

Lemma searched_app (tr1 tr2 : list (event Element)) :
  searched (tr1 ++ tr2) = searched tr1 ++ searched tr2.
Proof.
  induction tr1 as [|[] tr1 IH]; simpl; now rewrite ?IH.
Qed.

Lemma logins_app (tr1 tr2 : list (event Element)) :
  logins (tr1 ++ tr2) = (logins tr1 + logins tr2)%nat.
Proof.
  induction tr1 as [|[] tr1 IH]; simpl; now rewrite ?IH.
Qed.

(** Run a straight-line method: split on every answer of the browser
    and on every test. *)
Ltac exec :=
  repeat (cbn [fst snd self browser trace];
          match goal with
          | |- context [perform ?R ?c ?b] =>
            destruct (perform R c b) as [[?e|?r] ?b]
          | |- context [if ?c then _ else _] => destruct c eqn:?
          | |- context [search_term_handler _ ?e] => destruct e
          end).

Ltac unfold_run :=
  unfold login, login_body, login_handler, search_term, search_term_body,
    search_term_handler, fetch_page_source, try_except, bind, driver,
    print, sleep, log, get_self, set_is_logged_in, ret;
  cbn [fst snd self browser trace].

Ltac traces :=
  cbn [fst snd self browser trace];
  rewrite ?searched_app, ?logins_app; cbn [searched logins];
  rewrite ?app_nil_r, ?Nat.add_0_r.

Lemma classify_labels (page : str) :
  classify lower page = found \/ classify lower page = not_found.
Proof.
  unfold classify.
  repeat match goal with |- context [if ?c then _ else _] => destruct c end;
    auto.
Qed.

(** [login] never raises; it flips the flag exactly when it returns
    [True], and it enters [login] once and [search_term] never. *)
Lemma login_spec (w : world Browser Element) :
  exists b w',
    login perform w = (inr b, w')
    /\ self w' = (if b then with_is_logged_in true (self w) else self w)
    /\ searched (trace w') = searched (trace w)
    /\ logins (trace w') = S (logins (trace w)).
Proof.
  destruct w as [s b tr]. unfold_run. exec;
    (do 2 eexists; split; [reflexivity|]; traces;
     repeat split; auto; lia).
Qed.

(** [search_term] never raises, returns one of the three labels, leaves
    [self] alone and is entered once. *)
Lemma search_term_spec (term : str) (w : world Browser Element) :
  exists status w',
    search_term lower perform term w = (inr status, w')
    /\ (status = found \/ status = not_found \/ status = error)
    /\ self w' = self w
    /\ searched (trace w') = searched (trace w) ++ [term]
    /\ logins (trace w') = logins (trace w).
Proof.
  destruct w as [s b tr]. unfold_run. exec;
    (do 2 eexists; split; [reflexivity|]; traces;
     repeat split; auto;
     match goal with
     | |- context [classify lower ?p] =>
       destruct (classify_labels p) as [-> | ->]; auto
     end).
Qed.

Lemma bind_assoc {A B C} (m : M Browser Element A)
  (k : A -> M Browser Element B) (h : B -> M Browser Element C)
  (w : world Browser Element) :
  bind (bind m k) h w = bind m (fun a => bind (k a) h) w.
Proof. unfold bind. now destruct (m w) as [[e|a] w1]. Qed.

(** The loop never raises; it inserts the new terms in the order of
    their first occurrence, touches no other key, and enters
    [search_term] once for each term of the list, in order. *)
Lemma search_loop_spec (terms : list str) :
  forall (n i : nat) (results : dict) (w : world Browser Element),
  exists d w',
    search_loop lower perform n i terms results w = (inr d, w')
    /\ keys d = keys results
                ++ filter (fun y => negb (mem y (keys results)))
                          (first_occurrences terms)
    /\ (forall k, ~ In k terms -> dict_get k d = dict_get k results)
    /\ self w' = self w
    /\ searched (trace w') = searched (trace w) ++ terms
    /\ logins (trace w') = logins (trace w).
Proof.
  induction terms as [|term rest IH]; intros n i results w.
  - exists results, w. cbn. rewrite !app_nil_r. repeat split; auto.
  - cbn [search_loop]. unfold bind at 1, print, log.
    unfold bind at 1.
    match goal with
    | |- context [search_term lower perform term ?w1] =>
      destruct (search_term_spec term w1)
        as (status & w2 & -> & _ & Hself & Hs & Hl)
    end.
    unfold bind at 1, sleep, log.
    match goal with
    | |- context [search_loop lower perform n (S i) rest ?r ?w3] =>
      destruct (IH n (S i) r w3) as (d & w' & -> & Hk & Hg & Hself' & Hs' & Hl')
    end.
    exists d, w'. split; [reflexivity|].
    cbn [self trace] in *.
    repeat split.
    + rewrite Hk, keys_dict_set. apply first_occurrences_step.
    + intros k Hk'. rewrite Hg by (simpl in Hk'; tauto).
      apply dict_get_set_other. simpl in Hk'. intuition congruence.
    + congruence.
    + rewrite Hs', searched_app, Hs, searched_app. cbn [searched].
      rewrite !app_nil_r, <- app_assoc. reflexivity.
    + rewrite Hl', logins_app, Hl, logins_app. cbn [logins]. lia.
Qed.

Lemma search_loop_app (pre rest : list str) :
  forall (n i : nat) (results : dict) (w : world Browser Element),
    search_loop lower perform n i (pre ++ rest) results w
    = bind (search_loop lower perform n i pre results)
           (fun d =>
              search_loop lower perform n (i + List.length pre) rest d) w.
Proof.
  induction pre as [|term pre IH]; intros n i results w.
  - cbn. now rewrite Nat.add_0_r.
  - cbn [search_loop app List.length]. unfold bind, print, sleep, log.
    destruct (search_term lower perform term _) as [[e|status] w2];
      [reflexivity|].
    rewrite IH, Nat.add_succ_r. reflexivity.
Qed.

(** The value kept for a term is the status of its last occurrence. *)
Lemma search_loop_last (n : nat) (pre : list str) (t : str)
  (post : list str) (w : world Browser Element) :
  ~ In t post ->
  exists v,
    status_of_occurrence lower perform n pre t w = inr v
    /\ dict_get t (match fst (search_loop lower perform n 1 (pre ++ t :: post)
                                          [] w) with
                   | inr d => d
                   | inl _ => []
                   end) = Some v.
Proof.
  intros Hpost. rewrite search_loop_app. unfold status_of_occurrence, bind.
  destruct (search_loop_spec pre n 1 [] w) as (d1 & w1 & -> & _).
  cbn [search_loop fst snd Nat.add]. unfold bind, print, sleep, log.
  cbn [fst snd].
  match goal with
  | |- context [search_term lower perform t ?w1] =>
    destruct (search_term_spec t w1) as (status & w2 & -> & _)
  end.
  match goal with
  | |- context [search_loop lower perform n ?i post ?r ?w3] =>
    destruct (search_loop_spec post n i r w3) as (d & w' & -> & _ & Hg & _)
  end.
  exists status. cbn [fst]. split; [reflexivity|].
  rewrite (Hg t Hpost). apply dict_get_set_same.
Qed.

Lemma search_multiple_terms_unfold (terms : list str)
  (w : world Browser Element) :
  search_multiple_terms lower perform terms w
  = if is_logged_in (self w)
    then search_loop lower perform (List.length terms) 1 terms [] w
    else
      match login perform w with
      | (inl e, w1) => (inl e, w1)
      | (inr true, w1) =>
        search_loop lower perform (List.length terms) 1 terms [] w1
      | (inr false, w1) =>
        (inr (all_error terms),
         World (self w1) (browser w1)
               (trace w1
                ++ [Printed
                      (lit "Failed to login. Cannot proceed with searches.")]))
      end.
Proof.
  unfold search_multiple_terms, bind, get_self, print, log, ret.
  cbv beta iota zeta.
  destruct (is_logged_in (self w)); cbn [negb]; [reflexivity|].
  destruct (login perform w) as [[e|[|]] w1]; reflexivity.
Qed.

(** The three ways a batch run can go. *)
Lemma search_multiple_terms_cases (terms : list str)
  (w : world Browser Element) :
  (is_logged_in (self w) = true
   /\ authenticated_world perform w = Some w
   /\ search_multiple_terms lower perform terms w
      = search_loop lower perform (List.length terms) 1 terms [] w)
  \/ (is_logged_in (self w) = false
      /\ exists w1,
          login perform w = (inr true, w1)
          /\ authenticated_world perform w = Some w1
          /\ search_multiple_terms lower perform terms w
             = search_loop lower perform (List.length terms) 1 terms [] w1)
  \/ (is_logged_in (self w) = false
      /\ exists w1,
          login perform w = (inr false, w1)
          /\ authenticated_world perform w = None
          /\ search_multiple_terms lower perform terms w
             = (inr (all_error terms),
                World (self w1) (browser w1)
                      (trace w1
                       ++ [Printed
                             (lit "Failed to login. Cannot proceed with searches.")]))).
Proof.
  rewrite search_multiple_terms_unfold. unfold authenticated_world.
  destruct (is_logged_in (self w)) eqn:Hflag; [now left|].
  right.
  destruct (login_spec w) as ([|] & w1 & E & _); rewrite E.
  - left. split; [reflexivity|]. now exists w1.
  - right. split; [reflexivity|]. now exists w1.
Qed.

End Runs.

(** ** The properties of the specification *)

Lemma labels_distinct : found <> not_found /\ found <> error /\ not_found <> error.
Proof. repeat split; discriminate. Qed.

Section Claims.

Variable lower : str -> str.
Variables Browser Element : Type.
Variable perform :
  forall R, command Element R -> Browser -> (exn + R) * Browser.
Variable webdriver_Chrome : list chrome_option -> exn + Browser.

(** C1. A page that contains the phrase "Ei tuloksia" and also both
    "Yhteensä" and "osumaa" is classified "not found": the first rule
    of the chain is tried before the second. *)
Theorem classify_no_results_first (page : str) :
  substring (lit "Ei tuloksia") page ->
  substring (lit "Yhteensä") page ->
  substring (lit "osumaa") page ->
  classify lower page = not_found.
Proof.
  intros H1 _ _. apply contains_spec in H1.
  unfold classify. now rewrite H1.
Qed.

(** C4. A page that the first two rules do not match and that contains
    the section header "Lääketieteen termit", or "termit" once the page
    is lowered, is classified "found". *)
Theorem classify_section_header (page : str) :
  ~ substring (lit "Ei tuloksia") page ->
  ~ (substring (lit "Yhteensä") page /\ substring (lit "osumaa") page) ->
  substring (lit "Lääketieteen termit") page
  \/ substring (lit "termit") (lower page) ->
  classify lower page = found.
Proof.
  intros H1 H2 H3. apply contains_false in H1.
  unfold classify. rewrite H1.
  destruct (contains (lit "Yhteensä") page
            && contains (lit "osumaa") page); [reflexivity|].
  destruct H3 as [H3|H3]; apply contains_spec in H3; rewrite H3;
    [reflexivity | now rewrite orb_true_r].
Qed.

(** C5. A page with none of the markers (no "Ei tuloksia", not both
    "Yhteensä" and "osumaa", no section header, and neither
    "ei tuloksia" nor "ei löytynyt" once lowered) is classified
    "found". *)
Theorem classify_default_found (page : str) :
  ~ substring (lit "Ei tuloksia") page ->
  ~ substring (lit "ei tuloksia") (lower page) ->
  ~ (substring (lit "Yhteensä") page /\ substring (lit "osumaa") page) ->
  ~ substring (lit "Lääketieteen termit") page ->
  ~ substring (lit "termit") (lower page) ->
  ~ substring (lit "ei löytynyt") (lower page) ->
  classify lower page = found.
Proof.
  intros H1 H1' _ _ _ H4. unfold classify.
  apply contains_false in H1, H1', H4. rewrite H1.
  cbv zeta. rewrite H1', H4. cbn [orb].
  repeat match goal with |- context [if ?c then _ else _] => destruct c end;
    reflexivity.
Qed.

(** Once the page is fetched, [search_term] returns the label of that
    page and leaves the world as the fetch left it. *)
Lemma search_term_after_fetch (term : str) (w w1 : world Browser Element)
  (page : str) :
  fetch_page_source perform term (snd (log (Called_search_term term) w))
  = (inr page, w1) ->
  search_term lower perform term w = (inr (classify lower page), w1).
Proof.
  intros H. unfold search_term, search_term_body, try_except.
  unfold bind at 1. cbn [log snd] in *. unfold bind at 1.
  now rewrite H.
Qed.

(** C9. The label [search_term] returns depends on the fetched page and
    on nothing else.  Two searches that fetch the same page return the
    same label, "found" or "not found", whatever the terms searched and
    whatever the two worlds are (the attributes of [self], the state of
    the browser, all that happened before), and each leaves its world as
    the fetch left it: classifying reads and writes nothing.  The same
    holds of any number of searches, and of a search made again on the
    same object after any operations in between. *)
Theorem classification_depends_on_page_only :
  (forall term1 term2 (w1 w2 w1' w2' : world Browser Element) page,
      fetch_page_source perform term1
                        (snd (log (Called_search_term term1) w1))
      = (inr page, w1') ->
      fetch_page_source perform term2
                        (snd (log (Called_search_term term2) w2))
      = (inr page, w2') ->
      exists label,
        (label = found \/ label = not_found)
        /\ search_term lower perform term1 w1 = (inr label, w1')
        /\ search_term lower perform term2 w2 = (inr label, w2'))
  /\ (forall page (runs : list (str * world Browser Element)),
        Forall (fun run =>
                  exists w',
                    fetch_page_source
                      perform (fst run)
                      (snd (log (Called_search_term (fst run)) (snd run)))
                    = (inr page, w')) runs ->
        exists label,
          (label = found \/ label = not_found)
          /\ Forall (fun run =>
                       fst (search_term lower perform (fst run) (snd run))
                       = inr label) runs)
  /\ (forall (ops : list {A : Type & operation A}) term
             (w w1 w2 : world Browser Element) page,
        fetch_page_source perform term
                          (snd (log (Called_search_term term) w))
        = (inr page, w1) ->
        fetch_page_source perform term
                          (snd (log (Called_search_term term)
                                    (run_operations lower perform ops w1)))
        = (inr page, w2) ->
        fst (search_term lower perform term
               (run_operations lower perform ops
                  (snd (search_term lower perform term w))))
        = fst (search_term lower perform term w)).
Proof.
  split; [|split].
  - intros term1 term2 w1 w2 w1' w2' page H1 H2.
    exists (classify lower page).
    split; [apply classify_labels|].
    split; now apply search_term_after_fetch.
  - intros page runs Hruns. exists (classify lower page).
    split; [apply classify_labels|].
    induction Hruns as [|run runs [w' Hrun] _ IH]; constructor;
      [|exact IH].
    now rewrite (search_term_after_fetch _ _ _ _ Hrun).
  - intros ops term w w1 w2 page H1 H2.
    rewrite (search_term_after_fetch _ _ _ _ H1). cbn [fst snd].
    now rewrite (search_term_after_fetch _ _ _ _ H2).
Qed.

(** C2. When the session is not logged in and [login] fails, the
    batch run returns the dictionary that maps every input term to
    "error": its keys are the distinct input terms, each once.  Nothing
    happens after the login but one printed line: [search_term] is not
    entered and the browser is left as the login left it. *)
Theorem run_all_error_when_login_fails (terms : list str)
  (w w1 : world Browser Element) :
  is_logged_in (self w) = false ->
  login perform w = (inr false, w1) ->
  exists d w',
    search_multiple_terms lower perform terms w = (inr d, w')
    /\ (forall t, In t terms -> dict_get t d = Some error)
    /\ (forall t, In t (keys d) <-> In t terms)
    /\ NoDup (keys d)
    /\ searched (trace w') = searched (trace w)
    /\ browser w' = browser w1
    /\ trace w'
       = trace w1
         ++ [Printed (lit "Failed to login. Cannot proceed with searches.")].
Proof.
  intros Hflag Hlogin.
  rewrite search_multiple_terms_unfold, Hflag, Hlogin.
  do 2 eexists. split; [reflexivity|].
  destruct (all_error_fold terms []) as (Hk & Hin & _).
  cbn [keys map app] in Hk. rewrite keys_from_empty in Hk.
  fold (all_error terms) in Hk, Hin. fold (keys (all_error terms)) in Hk.
  cbn [browser trace]. repeat split; auto.
  - rewrite Hk. apply first_occurrences_In.
  - rewrite Hk. apply first_occurrences_In.
  - rewrite Hk. apply first_occurrences_NoDup.
  - destruct (login_spec _ _ perform w) as (b & w2 & E & _ & Hs & _).
    rewrite Hlogin in E. injection E as _ <-.
    rewrite searched_app, Hs. cbn. apply app_nil_r.
Qed.

(** C3. A batch run always returns a dictionary.  Its keys are the
    distinct input terms, each once, in the order of their first
    occurrence in the input (the input itself when no term is
    repeated); the value of a term is what its last
    occurrence produced: the status [search_term] returned for that
    occurrence when the searches ran, "error" when the login failed. *)
Theorem run_one_entry_per_term (terms : list str)
  (w : world Browser Element) :
  exists d w',
    search_multiple_terms lower perform terms w = (inr d, w')
    /\ keys d = first_occurrences terms
    /\ NoDup (keys d)
    /\ (NoDup terms -> keys d = terms)
    /\ (forall t, In t terms <-> exists v, dict_get t d = Some v)
    /\ (forall pre t post,
          terms = pre ++ t :: post -> ~ In t post ->
          exists v,
            dict_get t d = Some v
            /\ match authenticated_world perform w with
               | Some w1 =>
                 status_of_occurrence lower perform (List.length terms)
                                      pre t w1 = inr v
               | None => v = error
               end).
Proof.
  assert (forall w1,
             exists d w',
               search_loop lower perform (List.length terms) 1 terms [] w1
               = (inr d, w')
               /\ keys d = first_occurrences terms
               /\ (forall pre t post,
                      terms = pre ++ t :: post -> ~ In t post ->
                      exists v,
                        dict_get t d = Some v
                        /\ status_of_occurrence lower perform
                             (List.length terms) pre t w1 = inr v))
    as Hloop.
  { intros w1.
    destruct (search_loop_spec lower _ _ perform terms (List.length terms) 1 [] w1)
      as (d & w' & E & Hk & _).
    exists d, w'. split; [exact E|]. split.
    - rewrite Hk. cbn [keys map app]. apply keys_from_empty.
    - intros pre t post Hterms Hpost.
      destruct (search_loop_last lower _ _ perform (List.length terms)
                                 pre t post w1 Hpost) as (v & Hv & Hd).
      rewrite <- Hterms, E in Hd. cbn [fst] in Hd. now exists v. }
  enough (exists d w',
             search_multiple_terms lower perform terms w = (inr d, w')
             /\ keys d = first_occurrences terms
             /\ (forall pre t post,
                    terms = pre ++ t :: post -> ~ In t post ->
                    exists v,
                      dict_get t d = Some v
                      /\ match authenticated_world perform w with
                         | Some w1 =>
                           status_of_occurrence lower perform
                             (List.length terms) pre t w1 = inr v
                         | None => v = error
                         end))
    as (d & w' & E & Hk & Hlast).
  { exists d, w'.
    split; [exact E|]. split; [exact Hk|].
    split; [rewrite Hk; apply first_occurrences_NoDup|].
    split; [intros Hnd; rewrite Hk; now apply first_occurrences_NoDup_id|].
    split; [|exact Hlast].
    intros t. rewrite <- dict_get_keys, Hk. symmetry.
    apply first_occurrences_In. }
  destruct (search_multiple_terms_cases lower _ _ perform terms w)
    as [(_ & -> & ->) | [(_ & w1 & _ & -> & ->) | (_ & w1 & _ & -> & ->)]];
    [apply Hloop | apply Hloop |].
  do 2 eexists. split; [reflexivity|].
  destruct (all_error_fold terms []) as (Hk & Hin & _).
  cbn [keys map app] in Hk. rewrite keys_from_empty in Hk.
  split; [exact Hk|].
  intros pre t post -> _. exists error. split; [|reflexivity].
  apply Hin, in_elt.
Qed.

(** C10. When the loop runs (the session is logged in, or the login
    succeeds), [search_term] is entered once for every element of the
    input, duplicates included, in input order; the dictionary has one
    entry per distinct term, so fewer entries than searches when a term
    is repeated, and the entry of a term holds the status of its last
    occurrence. *)
Theorem run_searches_every_occurrence (terms : list str)
  (w w1 : world Browser Element) :
  authenticated_world perform w = Some w1 ->
  exists d w',
    search_multiple_terms lower perform terms w = (inr d, w')
    /\ searched (trace w') = searched (trace w) ++ terms
    /\ NoDup (keys d)
    /\ (List.length d <= List.length terms)%nat
    /\ (~ NoDup terms -> (List.length d < List.length terms)%nat)
    /\ (forall pre t post v,
          terms = pre ++ t :: post -> ~ In t post ->
          status_of_occurrence lower perform (List.length terms) pre t w1
          = inr v ->
          dict_get t d = Some v).
Proof.
  intros Hauth.
  assert (search_multiple_terms lower perform terms w
          = search_loop lower perform (List.length terms) 1 terms [] w1
          /\ searched (trace w1) = searched (trace w)) as [-> Hw1].
  { destruct (search_multiple_terms_cases lower _ _ perform terms w)
      as [(_ & E & ->) | [(_ & w2 & Hl & E & ->) | (_ & w2 & _ & E & _)]];
      rewrite E in Hauth; [| |discriminate]; injection Hauth as <-.
    - auto.
    - split; [reflexivity|].
      destruct (login_spec _ _ perform w) as (b & w3 & E3 & _ & Hs & _).
      rewrite Hl in E3. now injection E3 as _ <-. }
  destruct (search_loop_spec lower _ _ perform terms (List.length terms) 1 [] w1)
    as (d & w' & E & Hk & _ & _ & Hs & _).
  cbn [keys map app] in Hk. rewrite keys_from_empty in Hk.
  fold (keys d) in Hk.
  assert (List.length d = List.length (first_occurrences terms)) as Hlen
      by (rewrite <- Hk; unfold keys; now rewrite length_map).
  destruct (first_occurrences_length terms) as [Hle Hlt].
  exists d, w'. repeat split.
  - exact E.
  - now rewrite Hs, Hw1.
  - rewrite Hk. apply first_occurrences_NoDup.
  - lia.
  - intros Hnd. specialize (Hlt Hnd). lia.
  - intros pre t post v Hterms Hpost Hv.
    destruct (search_loop_last lower _ _ perform (List.length terms)
                               pre t post w1 Hpost) as (v' & Hv' & Hd).
    rewrite <- Hterms, E in Hd. cbn [fst] in Hd. congruence.
Qed.

(** C6. A scraper is constructed with the flag false.  Whatever
    operation is called on a session whose flag is false, the flag is
    true afterwards only if [login], run in that state, returns [True]
    (and the operation is [login] itself or the batch run, which calls
    it).  A [login] that returns [True] leaves the flag true; one that
    returns [False] leaves a false flag false, both when an exception
    was caught and when the page reached after the login is not the
    dictionary. *)
Theorem login_state_machine :
  (forall email_ password_ headless (w : world Browser Element),
      __init__ webdriver_Chrome email_ password_ headless = inr w ->
      is_logged_in (self w) = false)
  /\ (forall A (op : operation A) (w : world Browser Element),
        is_logged_in (self w) = false ->
        is_logged_in (self (snd (call lower perform op w))) = true ->
        (exists w1, login perform w = (inr true, w1))
        /\ match op with
           | op_login | op_search_multiple_terms _ => True
           | _ => False
           end)
  /\ (forall w w' : world Browser Element,
        login perform w = (inr true, w') -> is_logged_in (self w') = true)
  /\ (forall w w' : world Browser Element,
        is_logged_in (self w) = false ->
        login perform w = (inr false, w') ->
        is_logged_in (self w') = false)
  /\ (forall (w w1 : world Browser Element) e,
        login_body perform (snd (log Called_login w)) = (inl e, w1) ->
        exists w',
          login perform w = (inr false, w') /\ self w' = self w)
  /\ (forall w w1 : world Browser Element,
        login_body perform (snd (log Called_login w)) = (inr false, w1) ->
        login perform w = (inr false, w1) /\ self w1 = self w).
Proof.
  assert (forall w b w', login perform w = (inr b, w') ->
                         self w' = if b then with_is_logged_in true (self w)
                                   else self w) as Hlogin.
  { intros w b w' E.
    destruct (login_spec _ _ perform w) as (b0 & w0 & E0 & Hself & _).
    rewrite E in E0. now injection E0 as <- <-. }
  split; [|split; [|split; [|split; [|split]]]].
  - unfold __init__. intros email_ password_ headless w.
    destruct (webdriver_Chrome _); [discriminate|].
    now intros [= <-].
  - intros A op w Hflag Hafter.
    assert (forall B (m : M Browser Element B),
               self (snd (m w)) = self w ->
               is_logged_in (self (snd (m w))) = true -> False) as Hsame
        by (intros B m Hm Ht; congruence).
    assert (self (snd (close perform w)) = self w) as Hclose.
    { unfold close, driver.
      now destruct (perform unit (quit Element) (browser w)). }
    destruct op; cbn [call] in Hafter.
    + destruct (login_spec _ _ perform w) as ([|] & w1 & E & Hself & _);
        [eauto|]. rewrite E in Hafter. cbn [snd] in Hafter. congruence.
    + destruct (search_term_spec lower _ _ perform term w)
        as (st & w1 & E & _ & Hself & _).
      rewrite E in Hafter. cbn [snd] in Hafter. congruence.
    + rewrite search_multiple_terms_unfold, Hflag in Hafter.
      destruct (login_spec _ _ perform w) as ([|] & w1 & E & Hself & _);
        [eauto|]. rewrite E in Hafter. cbn [snd self] in Hafter. congruence.
    + destruct (Hsame _ _ Hclose Hafter).
    + cbn in Hafter. congruence.
    + destruct (Hsame _ _ Hclose Hafter).
  - intros w w' E. now rewrite (Hlogin _ _ _ E).
  - intros w w' Hflag E. now rewrite (Hlogin _ _ _ E).
  - intros w w1 e Hbody.
    destruct (login_spec _ _ perform w) as (b & w' & E & Hself & _).
    assert (b = false) as ->.
    { revert E. unfold login, try_except. unfold bind at 1.
      cbn [log snd] in *. rewrite Hbody.
      unfold login_handler, bind, print, log, ret. now intros [= <- _]. }
    now exists w'.
  - intros w w1 Hbody.
    assert (login perform w = (inr false, w1)) as E.
    { unfold login, try_except. unfold bind at 1.
      cbn [log snd] in *. now rewrite Hbody. }
    split; [exact E|]. exact (Hlogin _ _ _ E).
Qed.

(** C7. The check at the start of a batch run enters [login] once when
    the flag is false and not at all when it is true.  With the flag
    true the run is the loop alone, on the world as given (for an empty
    list it returns at once and changes nothing) and the flag stays
    true, so a second run enters [login] no more than the first. *)
Theorem login_check_idempotent :
  (forall terms (w : world Browser Element),
      logins (trace (snd (search_multiple_terms lower perform terms w)))
      = (logins (trace w) + if is_logged_in (self w) then 0 else 1)%nat)
  /\ (forall terms (w : world Browser Element),
        is_logged_in (self w) = true ->
        search_multiple_terms lower perform terms w
        = search_loop lower perform (List.length terms) 1 terms [] w
        /\ is_logged_in
             (self (snd (search_multiple_terms lower perform terms w)))
           = true)
  /\ (forall w : world Browser Element,
        is_logged_in (self w) = true ->
        search_multiple_terms lower perform [] w = (inr [], w))
  /\ (forall terms terms' (w : world Browser Element),
        is_logged_in (self w) = true ->
        logins
          (trace
             (snd (search_multiple_terms lower perform terms'
                     (snd (search_multiple_terms lower perform terms w)))))
        = logins (trace w)).
Proof.
  assert (forall terms (w : world Browser Element),
             logins (trace (snd (search_multiple_terms lower perform terms w)))
             = (logins (trace w) + if is_logged_in (self w) then 0 else 1)%nat)
    as Hcount.
  { intros terms w. rewrite search_multiple_terms_unfold.
    destruct (is_logged_in (self w)).
    - destruct (search_loop_spec lower _ _ perform terms
                                 (List.length terms) 1 [] w)
        as (d & w' & -> & _ & _ & _ & _ & Hl).
      cbn [snd]. lia.
    - destruct (login_spec _ _ perform w) as ([|] & w1 & -> & _ & _ & Hl).
      + destruct (search_loop_spec lower _ _ perform terms
                                   (List.length terms) 1 [] w1)
          as (d & w' & -> & _ & _ & _ & _ & Hl').
        cbn [snd]. lia.
      + cbn [snd trace]. rewrite logins_app. cbn [logins]. lia. }
  assert (forall terms (w : world Browser Element),
             is_logged_in (self w) = true ->
             search_multiple_terms lower perform terms w
             = search_loop lower perform (List.length terms) 1 terms [] w
             /\ is_logged_in
                  (self (snd (search_multiple_terms lower perform terms w)))
                = true)
    as Hkeep.
  { intros terms w Hflag. rewrite search_multiple_terms_unfold, Hflag.
    split; [reflexivity|].
    destruct (search_loop_spec lower _ _ perform terms
                               (List.length terms) 1 [] w)
      as (d & w' & -> & _ & _ & Hself & _).
    cbn [snd]. congruence. }
  split; [|split; [|split]].
  - exact Hcount.
  - exact Hkeep.
  - intros w Hflag. now rewrite search_multiple_terms_unfold, Hflag.
  - intros terms terms' w Hflag.
    rewrite Hcount, (proj2 (Hkeep terms w Hflag)), Hcount, Hflag. lia.
Qed.

(** C8. No operation of a batch run raises.  [login] returns a boolean,
    [False] when its body raised; [search_term] returns a label, and
    "error" both after a [TimeoutException] and after any other
    exception, with a different line printed in the two cases;
    [search_multiple_terms] returns a dictionary. *)
Theorem errors_become_results :
  (forall w : world Browser Element,
      exists b w', login perform w = (inr b, w'))
  /\ (forall (w w1 : world Browser Element) e,
        login_body perform (snd (log Called_login w)) = (inl e, w1) ->
        login perform w
        = (inr false,
           snd (print (lit "Error during login: " ++ exn_str e) w1)))
  /\ (forall term (w : world Browser Element),
        exists status w',
          search_term lower perform term w = (inr status, w')
          /\ (status = found \/ status = not_found \/ status = error))
  /\ (forall term (w w1 : world Browser Element) msg,
        search_term_body lower perform term
                         (snd (log (Called_search_term term) w))
        = (inl (TimeoutException msg), w1) ->
        search_term lower perform term w
        = (inr error,
           snd (print (lit "Timeout while searching for term: " ++ term)
                      w1)))
  /\ (forall term (w w1 : world Browser Element) msg,
        search_term_body lower perform term
                         (snd (log (Called_search_term term) w))
        = (inl (OtherException msg), w1) ->
        search_term lower perform term w
        = (inr error,
           snd (print (lit "Error searching for term '" ++ term
                       ++ lit "': " ++ msg) w1)))
  /\ (forall term msg,
        lit "Timeout while searching for term: " ++ term
        <> lit "Error searching for term '" ++ term ++ lit "': " ++ msg)
  /\ (forall terms (w : world Browser Element),
        exists d w',
          search_multiple_terms lower perform terms w = (inr d, w')).
Proof.
  split; [|split; [|split; [|split; [|split; [|split]]]]].
  - intros w. destruct (login_spec _ _ perform w) as (b & w' & E & _).
    eauto.
  - intros w w1 e Hbody. unfold login, try_except. unfold bind at 1.
    cbn [log snd] in *. now rewrite Hbody.
  - intros term w.
    destruct (search_term_spec lower _ _ perform term w)
      as (st & w' & E & Hst & _). eauto.
  - intros term w w1 msg Hbody. unfold search_term, try_except.
    unfold bind at 1. cbn [log snd] in *. now rewrite Hbody.
  - intros term w w1 msg Hbody. unfold search_term, try_except.
    unfold bind at 1. cbn [log snd] in *. now rewrite Hbody.
  - intros term msg H. apply (f_equal (hd 0)) in H.
    vm_compute in H. discriminate.
  - intros terms w.
    destruct (search_multiple_terms_cases lower _ _ perform terms w)
      as [(_ & _ & ->) | [(_ & w1 & _ & _ & ->) | (_ & w1 & _ & _ & ->)]];
      [| |eauto].
    + destruct (search_loop_spec lower _ _ perform terms
                                 (List.length terms) 1 [] w)
        as (d & w' & E & _). eauto.
    + destruct (search_loop_spec lower _ _ perform terms
                                 (List.length terms) 1 [] w1)
        as (d & w' & E & _). eauto.
Qed.

End Claims.

(** ** The canned site: runs and instances *)

Example end_to_end_two_terms :
  fst (search_multiple_terms lower_latin1 fake_perform
         [lit "Kirjasto"; lit "lääkäri"] (fake_world false true None None))
  = inr [(lit "Kirjasto", not_found); (lit "lääkäri", found)].
Proof. vm_compute. reflexivity. Qed.

Example end_to_end_login_fails :
  let w' := snd (search_multiple_terms lower_latin1 fake_perform
                   [lit "Sydän"] (fake_world false false None None)) in
  fst (search_multiple_terms lower_latin1 fake_perform
         [lit "Sydän"] (fake_world false false None None))
  = inr [(lit "Sydän", error)]
  /\ searched (trace w') = [] /\ is_logged_in (self w') = false.
Proof. vm_compute. auto. Qed.

Example duplicates_are_searched_again :
  let run := search_multiple_terms lower_latin1 fake_perform
               [lit "Kirjasto"; lit "Sydän"; lit "Kirjasto"]
               (fake_world true true None None) in
  fst run = inr [(lit "Kirjasto", not_found); (lit "Sydän", found)]
  /\ searched (trace (snd run)) = [lit "Kirjasto"; lit "Sydän"; lit "Kirjasto"]
  /\ logins (trace (snd run)) = 0%nat.
Proof. vm_compute. auto. Qed.

Example timeout_is_error :
  fst (search_term lower_latin1 fake_perform (lit "Sydän")
         (fake_world true true None (Some (TimeoutException (lit "Message: ")))))
  = inr error.
Proof. vm_compute. reflexivity. Qed.

Example lowered_header_is_found :
  classify lower_latin1 (lit "<H2>TERMIT</H2>") = found
  /\ classify lower_latin1 (lit "<p>EI LÖYTYNYT</p>") = not_found.
Proof. vm_compute. auto. Qed.

Lemma classify_no_results_first_witness :
  let page := lit "<p>Ei tuloksia</p><p>Yhteensä 0 osumaa</p>" in
  substring (lit "Ei tuloksia") page
  /\ substring (lit "Yhteensä") page
  /\ substring (lit "osumaa") page
  /\ classify lower_latin1 page = not_found.
Proof.
  intros page.
  assert (substring (lit "Ei tuloksia") page) as H1
      by (apply contains_spec; reflexivity).
  assert (substring (lit "Yhteensä") page) as H2
      by (apply contains_spec; reflexivity).
  assert (substring (lit "osumaa") page) as H3
      by (apply contains_spec; reflexivity).
  refine (conj H1 (conj H2 (conj H3 _))).
  exact (classify_no_results_first lower_latin1 page H1 H2 H3).
Defined.

Lemma classify_section_header_witness :
  let page := lit "<h2>Lääketieteen termit</h2>" in
  ~ substring (lit "Ei tuloksia") page
  /\ ~ (substring (lit "Yhteensä") page /\ substring (lit "osumaa") page)
  /\ (substring (lit "Lääketieteen termit") page
      \/ substring (lit "termit") (lower_latin1 page))
  /\ classify lower_latin1 page = found.
Proof.
  intros page.
  assert (~ substring (lit "Ei tuloksia") page) as H1
      by (apply contains_false; reflexivity).
  assert (~ (substring (lit "Yhteensä") page /\ substring (lit "osumaa") page))
    as H2.
  { intros [H _]. revert H. apply contains_false. reflexivity. }
  assert (substring (lit "Lääketieteen termit") page
          \/ substring (lit "termit") (lower_latin1 page)) as H3
      by (left; apply contains_spec; reflexivity).
  refine (conj H1 (conj H2 (conj H3 _))).
  exact (classify_section_header lower_latin1 page H1 H2 H3).
Defined.

Lemma classify_default_found_witness :
  let page := lit "<html><body>Sydän</body></html>" in
  classify lower_latin1 page = found.
Proof.
  intros page.
  apply (classify_default_found lower_latin1 page).
  - apply contains_false; reflexivity.
  - apply contains_false; reflexivity.
  - intros [H _]. revert H. apply contains_false. reflexivity.
  - apply contains_false; reflexivity.
  - apply contains_false; reflexivity.
  - apply contains_false; reflexivity.
Defined.

Lemma run_all_error_when_login_fails_witness :
  let w := fake_world false false None None in
  let terms := [lit "Sydän"; lit "lääkäri"; lit "Sydän"] in
  is_logged_in (self w) = false
  /\ fst (login fake_perform w) = inr false
  /\ exists d w',
      search_multiple_terms lower_latin1 fake_perform terms w = (inr d, w')
      /\ (forall t, In t terms -> dict_get t d = Some error)
      /\ NoDup (keys d)
      /\ searched (trace w') = [].
Proof.
  intros w terms. split; [reflexivity|]. split; [reflexivity|].
  destruct (run_all_error_when_login_fails
              lower_latin1 fake_browser fake_element fake_perform terms
              w (snd (login fake_perform w)))
    as (d & w' & E & Hin & _ & Hnd & Hs & _).
  - reflexivity.
  - vm_compute. reflexivity.
  - exists d, w'. exact (conj E (conj Hin (conj Hnd Hs))).
Defined.

Lemma run_searches_every_occurrence_witness :
  let w := fake_world false true None None in
  let terms := [lit "Kirjasto"; lit "Sydän"; lit "Kirjasto"] in
  exists d w',
    search_multiple_terms lower_latin1 fake_perform terms w = (inr d, w')
    /\ searched (trace w') = terms
    /\ (List.length d < List.length terms)%nat.
Proof.
  intros w terms.
  destruct (run_searches_every_occurrence
              lower_latin1 fake_browser fake_element fake_perform terms
              w (snd (login fake_perform w)))
    as (d & w' & E & Hs & _ & _ & Hlt & _).
  - vm_compute. reflexivity.
  - exists d, w'. split; [exact E|]. split; [exact Hs|].
    apply Hlt. intros Hnd. inversion Hnd as [|x l Hx _]. apply Hx.
    right; left; reflexivity.
Defined.

Lemma run_one_entry_per_term_witness :
  let w := fake_world false true None None in
  let terms := [lit "Sydän"; lit "Kirjasto"; lit "Sydän"] in
  exists d w',
    search_multiple_terms lower_latin1 fake_perform terms w = (inr d, w')
    /\ keys d = [lit "Sydän"; lit "Kirjasto"]
    /\ dict_get (lit "Sydän") d = Some found.
Proof.
  intros w terms.
  destruct (run_one_entry_per_term
              lower_latin1 fake_browser fake_element fake_perform terms w)
    as (d & w' & E & Hk & _ & _ & _ & Hlast).
  exists d, w'. split; [exact E|]. split; [exact Hk|].
  destruct (Hlast [lit "Sydän"; lit "Kirjasto"] (lit "Sydän") []
                  eq_refl (fun H => H)) as (v & Hv & Hst).
  vm_compute in Hst. injection Hst as <-. exact Hv.
Defined.

Lemma login_state_machine_witness :
  (exists w1,
      login fake_perform (fake_world false true None None) = (inr true, w1))
  /\ is_logged_in
       (self (snd (login fake_perform (fake_world false false None None))))
     = false
  /\ (exists w',
         login fake_perform
               (fake_world false true (Some (TimeoutException [])) None)
         = (inr false, w')
         /\ is_logged_in (self w') = false).
Proof.
  destruct (login_state_machine
              lower_latin1 fake_browser fake_element fake_perform
              (fun _ => inr (fake_start true None None)))
    as (_ & Hop & _ & Hfalse & Hexn & _).
  split; [|split].
  - apply (Hop _ (op_search_multiple_terms [lit "Sydän"])
               (fake_world false true None None)); reflexivity.
  - apply (Hfalse (fake_world false false None None)); [reflexivity|].
    vm_compute. reflexivity.
  - destruct (Hexn (fake_world false true (Some (TimeoutException [])) None)
                   (snd (login_body fake_perform
                           (snd (log Called_login
                                   (fake_world false true
                                      (Some (TimeoutException [])) None)))))
                   (TimeoutException []))
      as (w' & E & Hself).
    + vm_compute. reflexivity.
    + exists w'. split; [exact E|]. now rewrite Hself.
Defined.

Lemma login_check_idempotent_witness :
  logins (trace (snd (search_multiple_terms lower_latin1 fake_perform
                        [lit "Kirjasto"] (fake_world true true None None))))
  = 0%nat
  /\ logins (trace (snd (search_multiple_terms lower_latin1 fake_perform
                           [lit "Kirjasto"]
                           (fake_world false true None None))))
     = 1%nat.
Proof.
  destruct (login_check_idempotent
              lower_latin1 fake_browser fake_element fake_perform)
    as (Hcount & _).
  split.
  - exact (Hcount [lit "Kirjasto"] (fake_world true true None None)).
  - exact (Hcount [lit "Kirjasto"] (fake_world false true None None)).
Defined.

Lemma errors_become_results_witness :
  fst (search_term lower_latin1 fake_perform (lit "Sydän")
         (fake_world true true None (Some (TimeoutException []))))
  = inr error
  /\ fst (search_term lower_latin1 fake_perform (lit "Sydän")
            (fake_world true true None (Some (OtherException []))))
     = inr error.
Proof.
  destruct (errors_become_results
              lower_latin1 fake_browser fake_element fake_perform)
    as (_ & _ & _ & Htimeout & Hother & _).
  split.
  - erewrite Htimeout; [reflexivity|]. vm_compute. reflexivity.
  - erewrite Hother; [reflexivity|]. vm_compute. reflexivity.
Defined.

Lemma classification_depends_on_page_only_witness :
  let w1 := fake_world true true None None in
  let w2 :=
    World (Scraper (lit "https://www.terveysportti.fi/apps/sanakirjat/")
                   (lit "user@example.org") (lit "secret") false)
          (fake_start false None None)
          [Called_login; Slept 5] in
  fst (search_term lower_latin1 fake_perform (lit "lentokone") w1)
  = fst (search_term lower_latin1 fake_perform (lit "auto") w2).
Proof.
  intros w1 w2.
  destruct (classification_depends_on_page_only
              lower_latin1 fake_browser fake_element fake_perform)
    as (Htwo & _ & _).
  edestruct (Htwo (lit "lentokone") (lit "auto") w1 w2)
    as (label & _ & E1 & E2).
  - vm_compute. reflexivity.
  - vm_compute. reflexivity.
  - rewrite E1, E2. reflexivity.
Defined.

(** ** More on the classifier *)

Section ClassifierChain.

Variable lower : str -> str.

(** X1. A page is classified "not found" exactly when it contains
    "Ei tuloksia", or when it has neither both "Yhteensä" and "osumaa"
    nor the header "Lääketieteen termit" nor "termit" after lowering, and
    its lowering contains "ei tuloksia" or "ei löytynyt". *)
Theorem classify_not_found_iff (page : str) :
  classify lower page = not_found
  <-> substring (lit "Ei tuloksia") page
      \/ (~ (substring (lit "Yhteensä") page /\ substring (lit "osumaa") page)
          /\ ~ substring (lit "Lääketieteen termit") page
          /\ ~ substring (lit "termit") (lower page)
          /\ (substring (lit "ei tuloksia") (lower page)
              \/ substring (lit "ei löytynyt") (lower page))).
Proof.
  destruct labels_distinct as (Hfn & _).
  rewrite <- !contains_spec. unfold classify.
  destruct (contains (lit "Ei tuloksia") page); [tauto|].
  destruct (contains (lit "Yhteensä") page);
    destruct (contains (lit "osumaa") page);
    destruct (contains (lit "Lääketieteen termit") page);
    destruct (contains (lit "termit") (lower page));
    destruct (contains (lit "ei tuloksia") (lower page));
    destruct (contains (lit "ei löytynyt") (lower page));
    cbn; intuition congruence.
Qed.

(** X2. Fourth rule: a page that none of the first three rules matches
    and whose lowering contains "ei tuloksia" or "ei löytynyt" is
    classified "not found". *)
Theorem classify_lowered_no_results (page : str) :
  ~ substring (lit "Ei tuloksia") page ->
  ~ (substring (lit "Yhteensä") page /\ substring (lit "osumaa") page) ->
  ~ substring (lit "Lääketieteen termit") page ->
  ~ substring (lit "termit") (lower page) ->
  substring (lit "ei tuloksia") (lower page)
  \/ substring (lit "ei löytynyt") (lower page) ->
  classify lower page = not_found.
Proof.
  intros H1 H2 H3 H3' H4. revert H1 H2 H3 H3' H4.
  rewrite <- !contains_spec. unfold classify.
  destruct (contains (lit "Ei tuloksia") page); [intuition congruence|].
  destruct (contains (lit "Yhteensä") page);
    destruct (contains (lit "osumaa") page);
    destruct (contains (lit "Lääketieteen termit") page);
    destruct (contains (lit "termit") (lower page));
    destruct (contains (lit "ei tuloksia") (lower page));
    destruct (contains (lit "ei löytynyt") (lower page));
    cbn; intuition congruence.
Qed.

(** X3. Second rule: a page without "Ei tuloksia" that contains both
    "Yhteensä" and "osumaa" is classified "found", also when its lowering
    contains "ei tuloksia" or "ei löytynyt". *)
Theorem classify_total_hits (page : str) :
  ~ substring (lit "Ei tuloksia") page ->
  substring (lit "Yhteensä") page ->
  substring (lit "osumaa") page ->
  classify lower page = found.
Proof.
  intros H1 H2 H3.
  apply contains_false in H1. apply contains_spec in H2, H3.
  unfold classify. now rewrite H1, H2, H3.
Qed.

End ClassifierChain.

Lemma classify_not_found_iff_witness :
  classify lower_latin1 (lit "<p>EI LÖYTYNYT</p>") = not_found
  /\ ~ substring (lit "Ei tuloksia") (lit "<p>EI LÖYTYNYT</p>").
Proof.
  split.
  - apply (classify_not_found_iff lower_latin1). right.
    split; [intros [H _]; revert H; apply contains_false; reflexivity|].
    split; [apply contains_false; reflexivity|].
    split; [apply contains_false; reflexivity|].
    right. apply contains_spec. reflexivity.
  - apply contains_false. reflexivity.
Defined.

Lemma classify_lowered_no_results_witness :
  classify lower_latin1 (lit "<p>ei tuloksia</p>") = not_found.
Proof.
  apply (classify_lowered_no_results lower_latin1).
  - apply contains_false; reflexivity.
  - intros [H _]. revert H. apply contains_false. reflexivity.
  - apply contains_false; reflexivity.
  - apply contains_false; reflexivity.
  - left. apply contains_spec. reflexivity.
Defined.

Lemma classify_total_hits_witness :
  classify lower_latin1 (lit "Yhteensä 2 osumaa haulla EI TULOKSIA") = found.
Proof.
  apply (classify_total_hits lower_latin1).
  - apply contains_false; reflexivity.
  - apply contains_spec; reflexivity.
  - apply contains_spec; reflexivity.
Defined.

(** ** Footprints of the methods *)

Section Footprints.

Variable lower : str -> str.
Variables Browser Element : Type.
Variable perform :
  forall R, command Element R -> Browser -> (exn + R) * Browser.
Variable webdriver_Chrome : list chrome_option -> exn + Browser.

Lemma typed_app (tr1 tr2 : list (event Element)) :
  typed (tr1 ++ tr2) = typed tr1 ++ typed tr2.
Proof.
  induction tr1 as [|ev tr1 IH]; [reflexivity|].
  destruct ev as [| | | |R c]; try destruct c; simpl; now rewrite IH.
Qed.

Lemma navigated_app (tr1 tr2 : list (event Element)) :
  navigated (tr1 ++ tr2) = navigated tr1 ++ navigated tr2.
Proof.
  induction tr1 as [|ev tr1 IH]; [reflexivity|].
  destruct ev as [| | | |R c]; try destruct c; simpl; now rewrite IH.
Qed.

Lemma slept_app (tr1 tr2 : list (event Element)) :
  slept (tr1 ++ tr2) = (slept tr1 + slept tr2)%nat.
Proof.
  induction tr1 as [|ev tr1 IH]; [reflexivity|].
  destruct ev as [| | | |R c]; simpl; rewrite IH; lia.
Qed.

Lemma quits_app (tr1 tr2 : list (event Element)) :
  quits (tr1 ++ tr2) = (quits tr1 + quits tr2)%nat.
Proof.
  induction tr1 as [|ev tr1 IH]; [reflexivity|].
  destruct ev as [| | | |R c]; try destruct c; simpl; now rewrite IH.
Qed.

Lemma driven_app (tr1 tr2 : list (event Element)) :
  driven (tr1 ++ tr2) = (driven tr1 + driven tr2)%nat.
Proof.
  induction tr1 as [|ev tr1 IH]; [reflexivity|].
  destruct ev as [| | | |R c]; simpl; now rewrite IH.
Qed.

Ltac exec :=
  repeat (cbn [fst snd self browser trace];
          match goal with
          | |- context [perform ?R ?c ?b] =>
            destruct (perform R c b) as [[?e|?r] ?b]
          | |- context [if ?c then _ else _] => destruct c eqn:?
          | |- context [search_term_handler _ ?e] => destruct e
          end).

Ltac unfold_run :=
  unfold login, login_body, login_handler, search_term, search_term_body,
    search_term_handler, fetch_page_source, try_except, bind, driver,
    print, sleep, log, get_self, set_is_logged_in, ret;
  cbn [fst snd self browser trace].

(** Name what a straight-line run added to the trace. *)
Ltac added :=
  cbn [fst snd self browser trace];
  rewrite <- ?app_assoc; cbn [app];
  eexists; split; [reflexivity|];
  cbn [typed navigated slept quits driven searched logins
       url email password is_logged_in with_is_logged_in app Nat.add].

(** What [login] adds to the trace and leaves of [self]. *)
Lemma login_trace (w : world Browser Element) :
  exists added,
    trace (snd (login perform w)) = trace w ++ added
    /\ navigated added = [url (self w)]
    /\ (typed added = [] \/ typed added = [email (self w)]
        \/ typed added = [email (self w); password (self w)])
    /\ (fst (login perform w) = inr true ->
        typed added = [email (self w); password (self w)]
        /\ slept added = 7%nat)
    /\ (slept added <= 7)%nat
    /\ quits added = 0%nat
    /\ searched added = []
    /\ url (self (snd (login perform w))) = url (self w)
    /\ email (self (snd (login perform w))) = email (self w)
    /\ password (self (snd (login perform w))) = password (self w).
Proof.
  destruct w as [s b tr]. unfold_run. exec; added;
    repeat match goal with
           | |- _ /\ _ => split
           | |- _ -> _ => intros ?; try discriminate
           end; auto; lia.
Qed.

(** What [search_term] adds to the trace. *)
Lemma search_term_trace (term : str) (w : world Browser Element) :
  exists added,
    trace (snd (search_term lower perform term w)) = trace w ++ added
    /\ navigated added = [url (self w)]
    /\ (typed added = [] \/ typed added = [term]
        \/ typed added = [term; Keys_RETURN])
    /\ (fst (search_term lower perform term w) <> inr error ->
        typed added = [term; Keys_RETURN] /\ slept added = 3%nat)
    /\ (slept added = 0%nat \/ slept added = 3%nat)
    /\ (driven added <= 6)%nat
    /\ quits added = 0%nat
    /\ logins added = 0%nat
    /\ self (snd (search_term lower perform term w)) = self w.
Proof.
  destruct w as [s b tr]. unfold_run. exec; added;
    repeat match goal with
           | |- _ /\ _ => split
           | |- _ <> _ -> _ => intros H; try (destruct H; reflexivity)
           end; auto; lia.
Qed.

Lemma Forall_repeat {A} (P : A -> Prop) (x : A) (n : nat) :
  P x -> Forall P (repeat x n).
Proof. intros H. induction n; simpl; constructor; assumption. Qed.

(** The loop: one visit of [self.url] per term, between one and four
    seconds of sleep per term, at most six calls on the driver per term,
    nothing typed but terms of the list and RETURN, no quit, no login. *)
Lemma search_loop_footprint (terms : list str) :
  forall (n i : nat) (results : dict) (w : world Browser Element),
  exists added,
    trace (snd (search_loop lower perform n i terms results w))
    = trace w ++ added
    /\ navigated added = repeat (url (self w)) (List.length terms)
    /\ (List.length terms <= slept added <= 4 * List.length terms)%nat
    /\ (driven added <= 6 * List.length terms)%nat
    /\ Forall (fun text => In text terms \/ text = Keys_RETURN) (typed added)
    /\ quits added = 0%nat
    /\ logins added = 0%nat.
Proof.
  induction terms as [|term rest IH]; intros n i results w.
  - exists []. cbn. rewrite app_nil_r. repeat split; auto; lia.
  - cbn [search_loop]. unfold bind at 1, print, log. unfold bind at 1.
    match goal with
    | |- context [search_term lower perform term ?w1] =>
      destruct (search_term_trace term w1)
        as (a1 & Ht1 & Hn1 & Hty1 & _ & Hsl1 & Hd1 & Hq1 & Hl1 & Hself1);
      destruct (search_term_spec lower _ _ perform term w1)
        as (status & w2 & E & _)
    end.
    rewrite E in *. cbn [fst snd self trace] in *.
    unfold bind at 1, sleep, log.
    match goal with
    | |- context [search_loop lower perform n (S i) rest ?r ?w3] =>
      destruct (IH n (S i) r w3)
        as (a2 & Ht2 & Hn2 & Hsl2 & Hd2 & Hty2 & Hq2 & Hl2)
    end.
    cbn [self trace] in *.
    exists ([Printed (lit "Searching " ++ str_of_nat i ++ lit "/"
                      ++ str_of_nat n ++ lit ": " ++ term)]
            ++ a1 ++ [Slept 1] ++ a2).
    split; [rewrite Ht2, Ht1, <- !app_assoc; reflexivity|].
    rewrite !navigated_app, !slept_app, !driven_app, !typed_app, !quits_app,
      !logins_app.
    cbn [navigated slept driven typed quits logins app List.length repeat
         Nat.add].
    rewrite Hn1, Hn2, Hself1, Hq1, Hq2, Hl1, Hl2, ?app_nil_r.
    split; [reflexivity|]. split; [lia|]. split; [lia|].
    split; [|split; reflexivity].
    apply Forall_app. split.
    + destruct Hty1 as [-> | [-> | ->]];
        repeat (apply Forall_cons || apply Forall_nil); simpl; auto.
    + rewrite Forall_forall in *. intros text Ht.
      destruct (Hty2 text Ht); simpl; auto.
Qed.

(** A batch run: every visit is to [self.url], the browser is not quit,
    the address and the credentials stay, a true flag stays true. *)
Lemma search_multiple_terms_footprint (terms : list str)
  (w : world Browser Element) :
  let w' := snd (search_multiple_terms lower perform terms w) in
  exists added,
    trace w' = trace w ++ added
    /\ Forall (eq (url (self w))) (navigated added)
    /\ quits added = 0%nat
    /\ url (self w') = url (self w)
    /\ email (self w') = email (self w)
    /\ password (self w') = password (self w)
    /\ (is_logged_in (self w) = true -> is_logged_in (self w') = true).
Proof.
  cbv zeta. rewrite search_multiple_terms_unfold.
  destruct (is_logged_in (self w)) eqn:Hflag.
  - destruct (search_loop_footprint terms (List.length terms) 1 [] w)
      as (a & Ht & Hn & _ & _ & _ & Hq & _).
    destruct (search_loop_spec lower _ _ perform terms (List.length terms)
                               1 [] w) as (d & w' & E & _ & _ & Hself & _).
    rewrite E in *. cbn [snd] in *. exists a. rewrite Hself, Hn.
    repeat split; auto. now apply Forall_repeat.
  - destruct (login_trace w)
      as (a0 & Ht0 & Hn0 & _ & _ & _ & Hq0 & _ & Hu & He & Hp).
    destruct (login_spec _ _ perform w) as (ok & w1 & E0 & _).
    rewrite E0 in *. cbn [snd] in *. destruct ok.
    + destruct (search_loop_footprint terms (List.length terms) 1 [] w1)
        as (a & Ht & Hn & _ & _ & _ & Hq & _).
      destruct (search_loop_spec lower _ _ perform terms (List.length terms)
                                 1 [] w1) as (d & w' & E & _ & _ & Hself & _).
      rewrite E in *. cbn [snd] in *. exists (a0 ++ a).
      rewrite Ht, Ht0, app_assoc, navigated_app, quits_app, Hn0, Hn, Hq0, Hq,
        Hself, Hu.
      repeat split; auto; try discriminate.
      constructor; [reflexivity|]. now apply Forall_repeat.
    + cbn [self trace].
      exists (a0 ++ [Printed
                       (lit "Failed to login. Cannot proceed with searches.")]).
      rewrite Ht0, app_assoc, navigated_app, quits_app, Hn0, Hq0.
      cbn. repeat split; auto; try discriminate.
Qed.

(** Every operation of the class. *)
Lemma call_footprint {A} (op : operation A) (w : world Browser Element) :
  let w' := snd (call lower perform op w) in
  exists added,
    trace w' = trace w ++ added
    /\ Forall (eq (url (self w))) (navigated added)
    /\ url (self w') = url (self w)
    /\ email (self w') = email (self w)
    /\ password (self w') = password (self w)
    /\ (is_logged_in (self w) = true -> is_logged_in (self w') = true).
Proof.
  assert (let w' := snd (close perform w) in
          exists added,
            trace w' = trace w ++ added
            /\ Forall (eq (url (self w))) (navigated added)
            /\ url (self w') = url (self w)
            /\ email (self w') = email (self w)
            /\ password (self w') = password (self w)
            /\ (is_logged_in (self w) = true -> is_logged_in (self w') = true))
    as Hclose.
  { unfold close, driver. destruct (perform unit (quit Element) (browser w)).
    cbn. eexists. split; [reflexivity|]. cbn. repeat split; auto. }
  destruct op; cbn [call]; cbv zeta.
  - destruct (login_trace w)
      as (a & Ht & Hn & _ & _ & _ & _ & _ & Hu & He & Hp).
    exists a. rewrite Hn. repeat split; auto.
    destruct (login_spec _ _ perform w) as (ok & w1 & E & Hself & _).
    rewrite E. cbn [snd]. rewrite Hself.
    destruct ok; [reflexivity | auto].
  - destruct (search_term_trace term w)
      as (a & Ht & Hn & _ & _ & _ & _ & _ & _ & Hself).
    exists a. rewrite Hn, Hself. repeat split; auto.
  - destruct (search_multiple_terms_footprint terms w)
      as (a & Ht & Hn & _ & Hu & He & Hp & Hflag).
    exists a. repeat split; auto.
  - exact Hclose.
  - exists []. cbn. rewrite app_nil_r. repeat split; auto.
  - exact Hclose.
Qed.

(** X8. However the operations of the class are called one after the
    other, the address and the credentials of the object never change. *)
Theorem operations_keep_credentials (ops : list {A : Type & operation A})
  (w : world Browser Element) :
  url (self (run_operations lower perform ops w)) = url (self w)
  /\ email (self (run_operations lower perform ops w)) = email (self w)
  /\ password (self (run_operations lower perform ops w)) = password (self w).
Proof.
  revert w. induction ops as [|[A op] ops IH]; intros w; [now cbn|].
  cbn [run_operations].
  destruct (call_footprint op w) as (a & _ & _ & Hu & He & Hp & _).
  destruct (IH (snd (call lower perform op w))) as (Hu' & He' & Hp').
  repeat split; congruence.
Qed.

(** X9. No sequence of operations logs a session out: once the flag is
    true it stays true. *)
Theorem operations_never_log_out (ops : list {A : Type & operation A})
  (w : world Browser Element) :
  is_logged_in (self w) = true ->
  is_logged_in (self (run_operations lower perform ops w)) = true.
Proof.
  revert w. induction ops as [|[A op] ops IH]; intros w Hflag;
    [exact Hflag|].
  cbn [run_operations]. apply IH.
  destruct (call_footprint op w) as (a & _ & _ & _ & _ & _ & Hkeep).
  now apply Hkeep.
Qed.

(** X10. A scraper only ever visits the dictionary: whatever operations
    are called on a newly constructed object, every address given to
    [driver.get] is "https://www.terveysportti.fi/apps/sanakirjat/". *)
Theorem operations_visit_only_the_dictionary
  (email_ password_ : str) (headless : bool) (w0 : world Browser Element)
  (ops : list {A : Type & operation A}) :
  __init__ webdriver_Chrome email_ password_ headless = inr w0 ->
  Forall (eq (lit "https://www.terveysportti.fi/apps/sanakirjat/"))
         (navigated (trace (run_operations lower perform ops w0))).
Proof.
  intros Hinit.
  assert (url (self w0) = lit "https://www.terveysportti.fi/apps/sanakirjat/"
          /\ trace w0 = []) as [Hurl Htrace].
  { unfold __init__ in Hinit. destruct (webdriver_Chrome _); [discriminate|].
    injection Hinit as <-. now cbn. }
  rewrite <- Hurl.
  assert (Forall (eq (url (self w0))) (navigated (trace w0))) as Hstart
      by (rewrite Htrace; constructor).
  clear Hinit Hurl Htrace. revert w0 Hstart.
  induction ops as [|[A op] ops IH]; intros w Hstart; [exact Hstart|].
  cbn [run_operations].
  destruct (call_footprint op w) as (a & Ht & Hn & Hu & _).
  rewrite <- Hu. apply IH. rewrite Hu, Ht, navigated_app.
  apply Forall_app. now split.
Qed.

(** X7. What [login] does to the browser: it goes once to [self.url] and
    nowhere else, types nothing but the email and then the password (both
    when it returns [True], having then slept seven seconds), and neither
    quits the browser nor enters [search_term]. *)
Theorem login_footprint (w : world Browser Element) :
  exists added,
    trace (snd (login perform w)) = trace w ++ added
    /\ navigated added = [url (self w)]
    /\ (typed added = [] \/ typed added = [email (self w)]
        \/ typed added = [email (self w); password (self w)])
    /\ (fst (login perform w) = inr true ->
        typed added = [email (self w); password (self w)]
        /\ slept added = 7%nat)
    /\ quits added = 0%nat
    /\ searched added = [].
Proof.
  destruct (login_trace w)
    as (a & Ht & Hn & Hty & Hok & _ & Hq & Hs & _).
  exists a. split; [exact Ht|]. split; [exact Hn|]. split; [exact Hty|].
  split; [exact Hok|]. split; [exact Hq | exact Hs].
Qed.

(** X6. What [search_term] does: it goes once to [self.url], types
    nothing but the term and then RETURN (both, after a sleep of three
    seconds, when it returns "found" or "not found"), makes at most six
    calls on the driver, never quits the browser, never enters [login]
    and leaves [self] alone. *)
Theorem search_term_footprint (term : str) (w : world Browser Element) :
  exists added,
    trace (snd (search_term lower perform term w)) = trace w ++ added
    /\ navigated added = [url (self w)]
    /\ (typed added = [] \/ typed added = [term]
        \/ typed added = [term; Keys_RETURN])
    /\ (fst (search_term lower perform term w) <> inr error ->
        typed added = [term; Keys_RETURN] /\ slept added = 3%nat)
    /\ (driven added <= 6)%nat
    /\ quits added = 0%nat
    /\ logins added = 0%nat
    /\ self (snd (search_term lower perform term w)) = self w.
Proof.
  destruct (search_term_trace term w)
    as (a & Ht & Hn & Hty & Hok & _ & Hd & Hq & Hl & Hself).
  exists a. split; [exact Ht|]. split; [exact Hn|]. split; [exact Hty|].
  split; [exact Hok|]. split; [exact Hd|]. split; [exact Hq|].
  split; [exact Hl | exact Hself].
Qed.

(** X4. [search_term] returns "error" exactly when something in its
    [try] block raised; when nothing raised it returns "found" or
    "not found". *)
Theorem search_term_error_iff_raised (term : str)
  (w : world Browser Element) :
  (fst (search_term lower perform term w) = inr error
   <-> exists e,
       fst (search_term_body lower perform term
              (snd (log (Called_search_term term) w))) = inl e)
  /\ ((forall e,
          fst (search_term_body lower perform term
                 (snd (log (Called_search_term term) w))) <> inl e) ->
      fst (search_term lower perform term w) = inr found
      \/ fst (search_term lower perform term w) = inr not_found).
Proof.
  unfold search_term, try_except. unfold bind at 1 2 3. cbn [log fst snd].
  destruct (search_term_body lower perform term _) as [[e|status] w1] eqn:E;
    cbn [fst].
  - split.
    + split; [eauto|]. intros _.
      destruct e; unfold search_term_handler, bind, print, log, ret;
        reflexivity.
    + intros Hno. destruct (Hno e eq_refl).
  - unfold search_term_body, bind, ret in E.
    destruct (fetch_page_source perform term _) as [[e|page] w2];
      [discriminate|].
    injection E as E _. subst status.
    destruct labels_distinct as (_ & Hfe & Hne).
    split.
    + split; [|intros [e [=]]]. intros [= Herr].
      destruct (classify_labels lower page); congruence.
    + intros _. destruct (classify_labels lower page) as [-> | ->]; auto.
Qed.

(** X5. [search_term] does not look at the login flag: run on a session
    whose flag is set the other way, it returns the same and leaves the
    same browser and trace. *)
Theorem search_term_ignores_flag (term : str) (flag : bool)
  (w : world Browser Element) :
  search_term lower perform term (snd (set_is_logged_in flag w))
  = (fst (search_term lower perform term w),
     snd (set_is_logged_in flag (snd (search_term lower perform term w)))).
Proof.
  destruct w as [s b tr]. unfold_run. unfold with_is_logged_in.
  cbn [url email password]. exec; reflexivity.
Qed.

Lemma dict_set_values (P : str -> Prop) (k0 v0 : str) (d : dict) :
  (forall k v, dict_get k d = Some v -> P v) -> P v0 ->
  forall k v, dict_get k (dict_set k0 v0 d) = Some v -> P v.
Proof.
  intros Hd Hv0 k v.
  destruct (list_eq_dec N.eq_dec k k0) as [->|Hne].
  - rewrite dict_get_set_same. now intros [= <-].
  - rewrite dict_get_set_other by assumption. apply Hd.
Qed.

Lemma search_loop_values (terms : list str) :
  forall (n i : nat) (results : dict) (w : world Browser Element),
    (forall k v, dict_get k results = Some v ->
                 v = found \/ v = not_found \/ v = error) ->
    forall d w',
      search_loop lower perform n i terms results w = (inr d, w') ->
      forall k v, dict_get k d = Some v ->
                  v = found \/ v = not_found \/ v = error.
Proof.
  induction terms as [|term rest IH]; intros n i results w Hres d w'.
  - cbn. now intros [= <- _].
  - cbn [search_loop]. unfold bind at 1, print, log. unfold bind at 1.
    match goal with
    | |- context [search_term lower perform term ?w1] =>
      destruct (search_term_spec lower _ _ perform term w1)
        as (status & w2 & -> & Hlabel & _)
    end.
    unfold bind at 1, sleep, log. intros E.
    eapply IH; [|exact E]. now apply dict_set_values.
Qed.

(** A batch run returns a dictionary whose keys are the distinct terms in
    the order of their first occurrence and whose values are labels. *)
Lemma search_multiple_terms_returns (terms : list str)
  (w : world Browser Element) :
  exists d w',
    search_multiple_terms lower perform terms w = (inr d, w')
    /\ keys d = first_occurrences terms
    /\ (forall k v, dict_get k d = Some v ->
                    v = found \/ v = not_found \/ v = error).
Proof.
  assert (forall w1,
             exists d w',
               search_loop lower perform (List.length terms) 1 terms [] w1
               = (inr d, w')
               /\ keys d = first_occurrences terms
               /\ (forall k v, dict_get k d = Some v ->
                               v = found \/ v = not_found \/ v = error))
    as Hloop.
  { intros w1.
    destruct (search_loop_spec lower _ _ perform terms (List.length terms)
                               1 [] w1) as (d & w' & E & Hk & _).
    exists d, w'. split; [exact E|]. split.
    - rewrite Hk. cbn [keys map app]. apply keys_from_empty.
    - refine (search_loop_values terms _ _ [] w1 _ d w' E).
      intros k v [=]. }
  destruct (search_multiple_terms_cases lower _ _ perform terms w)
    as [(_ & _ & ->) | [(_ & w1 & _ & _ & ->) | (_ & w1 & _ & _ & ->)]];
    [apply Hloop | apply Hloop |].
  do 2 eexists. split; [reflexivity|].
  destruct (all_error_fold terms []) as (Hk & Hin & Hout).
  cbn [keys map app] in Hk. rewrite keys_from_empty in Hk.
  split; [exact Hk|].
  intros k v Hget. fold (all_error terms) in Hin, Hout.
  destruct (in_dec (list_eq_dec N.eq_dec) k terms) as [Hk'|Hk'].
  - rewrite (Hin k Hk') in Hget. injection Hget as <-. auto.
  - rewrite (Hout k Hk') in Hget. discriminate.
Qed.

(** X11. Every value of the dictionary a batch run returns is one of the
    three labels "found", "not found" and "error". *)
Theorem run_values_are_labels (terms : list str)
  (w w' : world Browser Element) (d : dict) (term status : str) :
  search_multiple_terms lower perform terms w = (inr d, w') ->
  dict_get term d = Some status ->
  status = found \/ status = not_found \/ status = error.
Proof.
  intros Hrun Hget.
  destruct (search_multiple_terms_returns terms w)
    as (d0 & w0 & E & _ & Hlabels).
  rewrite Hrun in E. injection E as <- _.
  exact (Hlabels term status Hget).
Qed.

(** X12. A batch run over the empty list returns the empty dictionary.
    On a session that is logged in it changes nothing; on one that is not
    it still runs [login] once, which visits [self.url]. *)
Theorem run_empty (w : world Browser Element) :
  fst (search_multiple_terms lower perform [] w) = inr []
  /\ (is_logged_in (self w) = true ->
      snd (search_multiple_terms lower perform [] w) = w)
  /\ (is_logged_in (self w) = false ->
      logins (trace (snd (search_multiple_terms lower perform [] w)))
      = S (logins (trace w))
      /\ exists added,
          trace (snd (search_multiple_terms lower perform [] w))
          = trace w ++ added
          /\ navigated added = [url (self w)]).
Proof.
  rewrite search_multiple_terms_unfold.
  destruct (is_logged_in (self w)) eqn:Hflag.
  - cbn. split; [reflexivity|]. split; [reflexivity | discriminate].
  - destruct (login_trace w) as (a & Ht & Hn & _).
    destruct (login_spec _ _ perform w) as (ok & w1 & E & _ & _ & Hl).
    rewrite E in *. cbn [snd] in Ht.
    destruct ok; cbn [search_loop ret fst snd trace all_error fold_left].
    + split; [reflexivity|]. split; [discriminate|]. intros _.
      split; [exact Hl|]. now exists a.
    + split; [reflexivity|]. split; [discriminate|]. intros _.
      rewrite logins_app. cbn [logins]. split; [lia|].
      exists (a ++ [Printed
                      (lit "Failed to login. Cannot proceed with searches.")]).
      rewrite Ht, app_assoc, navigated_app, Hn. now cbn.
Qed.

(** X13. When the loop of a batch run starts, it visits [self.url] once
    per term of the input, sleeps at least one and at most four seconds
    per term, and makes at most six calls on the driver per term. *)
Theorem run_pace (terms : list str) (w w1 : world Browser Element) :
  authenticated_world perform w = Some w1 ->
  exists added,
    trace (snd (search_multiple_terms lower perform terms w))
    = trace w1 ++ added
    /\ navigated added = repeat (url (self w)) (List.length terms)
    /\ (List.length terms <= slept added <= 4 * List.length terms)%nat
    /\ (driven added <= 6 * List.length terms)%nat
    /\ quits added = 0%nat.
Proof.
  intros Hauth.
  assert (search_multiple_terms lower perform terms w
          = search_loop lower perform (List.length terms) 1 terms [] w1
          /\ url (self w1) = url (self w)) as [-> Hurl].
  { destruct (search_multiple_terms_cases lower _ _ perform terms w)
      as [(_ & E & ->) | [(_ & w2 & Hl & E & ->) | (_ & w2 & _ & E & _)]];
      rewrite E in Hauth; [| |discriminate]; injection Hauth as <-.
    - auto.
    - split; [reflexivity|].
      destruct (login_trace w) as (a & _ & _ & _ & _ & _ & _ & _ & Hu & _).
      now rewrite Hl in Hu. }
  destruct (search_loop_footprint terms (List.length terms) 1 [] w1)
    as (a & Ht & Hn & Hsl & Hd & _ & Hq & _).
  exists a. rewrite <- Hurl. auto.
Qed.

Lemma search_term_enters (term : str) (w : world Browser Element) :
  exists rest,
    trace (snd (search_term lower perform term w))
    = trace w ++ Called_search_term term :: rest.
Proof.
  destruct w as [s b tr]. unfold_run. exec;
    cbn [fst snd trace]; rewrite <- ?app_assoc; cbn [app];
    eexists; reflexivity.
Qed.

(** X14. When the loop of a batch run starts, each search is announced
    just before [search_term] is entered, by the line
    "Searching i/n: term", where [i] counts the terms of the input from 1
    and [n] is the length of the input. *)
Theorem run_announces_each_search (terms pre post : list str) (t : str)
  (w w1 : world Browser Element) :
  authenticated_world perform w = Some w1 ->
  terms = pre ++ t :: post ->
  exists before after,
    trace (snd (search_multiple_terms lower perform terms w))
    = before
      ++ [Printed (lit "Searching " ++ str_of_nat (S (List.length pre))
                   ++ lit "/" ++ str_of_nat (List.length terms)
                   ++ lit ": " ++ t);
          Called_search_term t]
      ++ after.
Proof.
  intros Hauth Hterms.
  assert (search_multiple_terms lower perform terms w
          = search_loop lower perform (List.length terms) 1 terms [] w1)
    as ->.
  { destruct (search_multiple_terms_cases lower _ _ perform terms w)
      as [(_ & E & ->) | [(_ & w2 & Hl & E & ->) | (_ & w2 & _ & E & _)]];
      rewrite E in Hauth; [| |discriminate]; now injection Hauth as <-. }
  generalize (List.length terms). intros n. subst terms.
  rewrite search_loop_app. unfold bind at 1.
  destruct (search_loop_spec lower _ _ perform pre n 1 [] w1)
    as (d1 & w2 & -> & _).
  cbn [search_loop Nat.add]. unfold bind at 1, print, log. unfold bind at 1.
  match goal with
  | |- context [search_term lower perform t ?w3] =>
    destruct (search_term_enters t w3) as (rest & Hrest);
    destruct (search_term_spec lower _ _ perform t w3)
      as (status & w4 & E & _)
  end.
  rewrite E in *. cbn [snd trace] in Hrest.
  unfold bind at 1, sleep, log.
  match goal with
  | |- context [search_loop lower perform n ?i post ?r ?w5] =>
    destruct (search_loop_footprint post n i r w5) as (a & -> & _)
  end.
  cbn [trace]. rewrite Hrest.
  exists (trace w2), (rest ++ [Slept 1] ++ a).
  rewrite <- !app_assoc. reflexivity.
Qed.

(** X15. The [with] block always ends by calling [driver.quit] once,
    after the body and whether or not the body raised; it leaves [self] as
    the body left it, and it returns or raises what the body returned or
    raised unless [quit] raises, in which case it raises that. *)
Theorem with_scraper_quits_once {A} (body : M Browser Element A)
  (w : world Browser Element) :
  let w1 := snd (body w) in
  let r := with_scraper perform body w in
  trace (snd r) = trace w1 ++ [Driver unit (quit Element)]
  /\ self (snd r) = self w1
  /\ match fst (perform unit (quit Element) (browser w1)) with
     | inl e => fst r = inl e
     | inr _ => fst r = fst (body w)
     end.
Proof.
  cbv zeta. unfold with_scraper, __enter__, get_self, __exit__, close, driver.
  destruct (body w) as [r w1]. cbn [snd fst].
  destruct (perform unit (quit Element) (browser w1)) as [[e|u] b];
    cbn [fst snd trace self]; auto.
Qed.

Lemma print_items_trace (results : dict) :
  forall w : world Browser Element,
  exists added,
    print_items results w
    = (inr tt, World (self w) (browser w) (trace w ++ added))
    /\ quits added = 0%nat /\ navigated added = [] /\ driven added = 0%nat.
Proof.
  induction results as [|[term status] rest IH]; intros w.
  - exists []. cbn. rewrite app_nil_r. now destruct w.
  - cbn [print_items]. unfold bind, print, log.
    match goal with
    | |- context [print_items rest ?w1] =>
      destruct (IH w1) as (a & -> & Hq & Hn & Hd)
    end.
    cbn [self browser trace].
    exists (Printed (result_line term status) :: a).
    rewrite <- app_assoc. cbn. auto.
Qed.

(** The part of [main] that follows the constructor, for any body of
    the [with] block. *)
Lemma with_then_display (body : M Browser Element dict)
  (w : world Browser Element) :
  let w1 := snd (body w) in
  let r :=
    bind (with_scraper perform body)
         (fun results => bind (display results) (fun _ => ret results)) w in
  exists shown,
    quits shown = 0%nat /\ navigated shown = []
    /\ match fst (perform unit (quit Element) (browser w1)), fst (body w) with
       | inl e, _ | inr _, inl e =>
         fst r = inl e
         /\ trace (snd r) = trace w1 ++ [Driver unit (quit Element)]
       | inr _, inr d =>
         fst r = inr d
         /\ trace (snd r) = trace w1 ++ [Driver unit (quit Element)] ++ shown
       end.
Proof.
  cbv zeta.
  unfold with_scraper, __enter__, get_self, __exit__, close, driver, display.
  unfold bind, print, log, ret.
  destruct (body w) as [[e|d] w1]; cbn [fst snd];
    destruct (perform unit (quit Element) (browser w1)) as [[e'|u] b1];
    cbn [fst snd trace self browser];
    try (exists []; split; [reflexivity|]; split; [reflexivity|];
         split; reflexivity).
  match goal with
  | |- context [print_items d ?w2] =>
    destruct (print_items_trace d w2) as (p & -> & Hpq & Hpn & _)
  end.
  cbn [fst snd trace self browser].
  exists ([Printed ([10] ++ rule); Printed (lit "RESULTS:"); Printed rule]
          ++ p ++ [Printed rule]).
  rewrite !quits_app, !navigated_app, Hpq, Hpn.
  split; [reflexivity|]. split; [reflexivity|]. split; [reflexivity|].
  rewrite <- !app_assoc. reflexivity.
Qed.

(** X16. [main] raises what the constructor raises, without a call on
    any browser.  Once the browser exists, [main] quits it exactly once,
    visits nothing but the dictionary, and raises only what [quit]
    raised; the dictionary it returns has the four terms of the example
    as its keys, in their order, with labels as values. *)
Theorem main_outcome :
  (forall e,
      webdriver_Chrome (chrome_options false) = inl e ->
      fst (main lower perform webdriver_Chrome) = inl e
      /\ driven (snd (main lower perform webdriver_Chrome)) = 0%nat)
  /\ (forall b,
        webdriver_Chrome (chrome_options false) = inr b ->
        quits (snd (main lower perform webdriver_Chrome)) = 1%nat
        /\ Forall (eq (lit "https://www.terveysportti.fi/apps/sanakirjat/"))
                  (navigated (snd (main lower perform webdriver_Chrome)))
        /\ (forall d,
              fst (main lower perform webdriver_Chrome) = inr d ->
              keys d = search_terms
              /\ forall k v, dict_get k d = Some v ->
                             v = found \/ v = not_found \/ v = error)
        /\ (forall e,
              fst (main lower perform webdriver_Chrome) = inl e ->
              exists b1, fst (perform unit (quit Element) b1) = inl e)).
Proof.
  split.
  - intros e H. unfold main, __init__. rewrite H. now cbn.
  - intros b H. unfold main, __init__. rewrite H.
    cbn [self browser trace app].
    match goal with
    | |- context [bind (with_scraper perform ?body) ?k ?w] =>
      destruct (search_multiple_terms_returns search_terms w)
        as (d & w1 & E & Hk & Hlab);
      destruct (search_multiple_terms_footprint search_terms w)
        as (a & Ht & Hn & Hq & _);
      destruct (with_then_display body w) as (shown & Hsq & Hsn & Hrun);
      assert (url (self w)
              = lit "https://www.terveysportti.fi/apps/sanakirjat/") as Hurl
          by reflexivity;
      rewrite Hurl in Hn; clear Hurl
    end.
    rewrite E in Ht, Hrun. cbn [fst snd self trace url] in Ht, Hrun.
    match goal with
    | |- context [bind ?m ?k ?w] => destruct (bind m k w) as [r w']
    end.
    cbn [fst snd] in *.
    assert (first_occurrences search_terms = search_terms) as Hfirst
        by (vm_compute; reflexivity).
    destruct (perform unit (quit Element) (browser w1)) as [[e|u] b1] eqn:Eq;
      cbn [fst] in Hrun; destruct Hrun as [-> ->]; rewrite Ht;
      rewrite !quits_app, !navigated_app, Hq, ?Hsq, ?Hsn;
      cbn [quits navigated app Nat.add]; rewrite ?app_nil_r.
    + split; [reflexivity|]. split; [exact Hn|].
      split; [discriminate|]. intros e' [= <-]. exists (browser w1).
      rewrite Eq. reflexivity.
    + split; [reflexivity|]. split; [exact Hn|].
      split; [|discriminate]. intros d' [= <-].
      split; [|exact Hlab]. rewrite Hk. exact Hfirst.
Qed.

End Footprints.

(** ** The canned site: instances of the footprints *)

Lemma operations_never_log_out_witness :
  let ops : list {A : Type & operation A} :=
    [existT _ _ (op_search_multiple_terms [lit "Kirjasto"]);
     existT _ _ op_login;
     existT _ _ op_close] in
  let w := fake_world true false None None in
  is_logged_in (self w) = true
  /\ is_logged_in (self (run_operations lower_latin1 fake_perform ops w))
     = true.
Proof.
  intros ops w. split; [reflexivity|].
  apply (operations_never_log_out lower_latin1 _ _ fake_perform ops w).
  reflexivity.
Defined.

Lemma operations_visit_only_the_dictionary_witness :
  let ops : list {A : Type & operation A} :=
    [existT _ _ op_login;
     existT _ _ (op_search_term (lit "Sydän"));
     existT _ _ op_exit] in
  let chrome := fun _ : list chrome_option =>
                  @inr exn fake_browser (fake_start true None None) in
  let w0 := World (Scraper (lit "https://www.terveysportti.fi/apps/sanakirjat/")
                           (lit "user@example.org") (lit "secret") false)
                  (fake_start true None None) [] in
  Forall (eq (lit "https://www.terveysportti.fi/apps/sanakirjat/"))
         (navigated (trace (run_operations lower_latin1 fake_perform ops w0))).
Proof.
  intros ops chrome w0.
  apply (operations_visit_only_the_dictionary
           lower_latin1 _ _ fake_perform chrome
           (lit "user@example.org") (lit "secret") true w0 ops).
  reflexivity.
Defined.

Lemma run_values_are_labels_witness :
  let w := fake_world true true None None in
  let run := search_multiple_terms lower_latin1 fake_perform
               [lit "Kirjasto"] w in
  run = (inr [(lit "Kirjasto", not_found)], snd run)
  /\ (not_found = found \/ not_found = not_found \/ not_found = error).
Proof.
  intros w run.
  assert (run = (inr [(lit "Kirjasto", not_found)], snd run)) as Hrun
      by (vm_compute; reflexivity).
  split; [exact Hrun|].
  apply (run_values_are_labels lower_latin1 _ _ fake_perform
           [lit "Kirjasto"] w (snd run) [(lit "Kirjasto", not_found)]
           (lit "Kirjasto") not_found Hrun).
  vm_compute. reflexivity.
Defined.

Lemma run_pace_witness :
  let w := fake_world false true None None in
  let terms := [lit "Kirjasto"; lit "Sydän"] in
  exists added,
    trace (snd (search_multiple_terms lower_latin1 fake_perform terms w))
    = trace (snd (login fake_perform w)) ++ added
    /\ (2 <= slept added <= 8)%nat.
Proof.
  intros w terms.
  destruct (run_pace lower_latin1 _ _ fake_perform terms w
                     (snd (login fake_perform w)))
    as (added & Ht & _ & Hsl & _).
  - vm_compute. reflexivity.
  - exists added. split; [exact Ht | exact Hsl].
Defined.

Lemma run_announces_each_search_witness :
  let w := fake_world true true None None in
  let terms := [lit "Kirjasto"; lit "Sydän"] in
  exists before after,
    trace (snd (search_multiple_terms lower_latin1 fake_perform terms w))
    = before
      ++ [Printed (lit "Searching 2/2: Sydän");
          Called_search_term (lit "Sydän")]
      ++ after.
Proof.
  intros w terms.
  destruct (run_announces_each_search
              lower_latin1 _ _ fake_perform terms [lit "Kirjasto"] []
              (lit "Sydän") w w eq_refl eq_refl)
    as (before & after & Ht).
  exists before, after. exact Ht.
Defined.

Lemma main_outcome_witness :
  let chrome := fun _ : list chrome_option =>
                  @inr exn fake_browser (fake_start true None None) in
  quits (snd (main lower_latin1 fake_perform chrome)) = 1%nat
  /\ keys (match fst (main lower_latin1 fake_perform chrome) with
           | inr d => d
           | inl _ => []
           end) = search_terms.
Proof.
  intros chrome.
  destruct (main_outcome lower_latin1 _ _ fake_perform chrome)
    as (_ & Hok).
  destruct (Hok (fake_start true None None) eq_refl) as (Hq & _ & Hd & _).
  split; [exact Hq|].
  assert (exists d, fst (main lower_latin1 fake_perform chrome) = inr d)
    as [d E] by (vm_compute; eexists; reflexivity).
  rewrite E. exact (proj1 (Hd d E)).
Defined.

Lemma run_empty_witness :
  let w := fake_world false false None None in
  fst (search_multiple_terms lower_latin1 fake_perform [] w) = inr []
  /\ logins (trace (snd (search_multiple_terms lower_latin1 fake_perform [] w)))
     = 1%nat.
Proof.
  intros w.
  destruct (run_empty lower_latin1 _ _ fake_perform w) as (Hd & _ & Hl).
  split; [exact Hd|]. exact (proj1 (Hl eq_refl)).
Defined.
